(** * FarmTrack: the entity store of [App.tsx] and its mutation operations

    A shallow embedding of the state layer of the root component
    ([src/App.tsx]) and of the record types of [types.ts].

    Conventions of the embedding.
    - A JavaScript [number] that the operations only copy, compare, add or
      subtract is an integer ([Z], exact arithmetic); [basePrice], the one
      field that [bulkImportSales] computes by a division, is a rational.
      The program computes with doubles: the two agree on whole numbers as
      long as the operands and the result of a sum or a difference are safe
      integers.  A property that needs a sum or a difference to be exact
      states this as a condition ([isSafeInteger]); decimal quantities and
      amounts, and a date that is [NaN], are outside the model.
    - An optional field ([imageUrl?], [metadata?], ...) is an [option].
    - A React state cell is a field of [Store]; [setX(prev => f(prev))] is
      [setX f], and a handler is the composition of its updates in program
      order.  What a handler reads through its closure ([sales], [products],
      [customers]) it reads from the store it was rendered with, which is
      the handler's argument.
    - [Date.now()] and [Math.random()] are inputs ([Tick]); [alert] is an
      output. *)

From Stdlib Require Import ZArith List String Ascii Bool Lia DecimalString QArith.
Import ListNotations.
Local Open Scope Z_scope.
Local Open Scope string_scope.

(** ** JavaScript helpers *)

(** [n.toString()] and [`${n}`] for an integral number of a magnitude below
    10^21, from where on the program writes an exponent. *)
Definition toString (n : Z) : string := NilZero.string_of_int (Z.to_int n).

(** [s || d] on a possibly undefined string: [undefined] and the empty
    string are falsy. *)
Definition strOr (s : option string) (d : string) : string :=
  match s with
  | Some x => if x =? "" then d else x
  | None => d
  end.

(** [s || undefined]: a falsy string becomes [undefined]. *)
Definition strOrUndefined (s : option string) : option string :=
  match s with
  | Some x => if x =? "" then None else Some x
  | None => None
  end.

(** [n || d] on a number: [0] is falsy. *)
Definition numOr (n d : Z) : Z := if (n =? 0)%Z then d else n.

(** [String.prototype.toLowerCase], on the ASCII letters: on a string
    written in ASCII it is that of the program; letters outside ASCII, which
    the program lowers as well, are left as they are. *)
Definition lowerAscii (c : ascii) : ascii :=
  let n := nat_of_ascii c in
  if (Nat.leb 65 n && Nat.leb n 90)%bool then ascii_of_nat (n + 32) else c.

Fixpoint toLowerCase (s : string) : string :=
  match s with
  | EmptyString => EmptyString
  | String c r => String (lowerAscii c) (toLowerCase r)
  end.

(** [String.prototype.trim], on the ASCII white space (space, tab, line
    feed, vertical tab, form feed, carriage return): on a string written in
    ASCII it is that of the program; the blanks outside ASCII, which the
    program removes as well, are left in place. *)
Definition isSpace (c : ascii) : bool :=
  let n := nat_of_ascii c in
  (Nat.eqb n 32 || (Nat.leb 9 n && Nat.leb n 13))%bool.

Fixpoint trimStart (s : string) : string :=
  match s with
  | EmptyString => EmptyString
  | String c r => if isSpace c then trimStart r else s
  end.

Fixpoint trimEnd (s : string) : string :=
  match s with
  | EmptyString => EmptyString
  | String c r =>
      match trimEnd r with
      | EmptyString => if isSpace c then EmptyString else String c EmptyString
      | r' => String c r'
      end
  end.

Definition trim (s : string) : string := trimEnd (trimStart s).

(** ** Record types ([types.ts]) *)

Inductive PaymentStatus := Paid | Pending.

Definition PaymentStatus_toString (p : PaymentStatus) : string :=
  match p with Paid => "Paid" | Pending => "Pending" end.

Module Sale.
Record t := mk {
  id : string;
  customerId : string;
  productId : string;
  quantity : Z;
  totalAmount : Z;
  date : Z;
  paymentStatus : PaymentStatus;
  notes : option string
}.
End Sale.

Module Product.
Record t := mk {
  id : string;
  name : string;
  unit : string;
  basePrice : Q;
  category : string;
  imageUrl : option string;
  isGeneratingImage : option bool;
  currentStock : Z;
  minStockLevel : Z;
  discountPercentage : option Z;
  taxPercentage : option Z
}.

(** [{ ...p, currentStock: v }] *)
Definition with_currentStock (v : Z) (p : t) : t :=
  mk (id p) (name p) (unit p) (basePrice p) (category p) (imageUrl p)
     (isGeneratingImage p) v (minStockLevel p) (discountPercentage p)
     (taxPercentage p).

(** [{ ...p, isGeneratingImage: b }] *)
Definition with_isGeneratingImage (b : bool) (p : t) : t :=
  mk (id p) (name p) (unit p) (basePrice p) (category p) (imageUrl p)
     (Some b) (currentStock p) (minStockLevel p) (discountPercentage p)
     (taxPercentage p).

(** [{ ...p, imageUrl: u, isGeneratingImage: b }] *)
Definition with_image (u : option string) (b : bool) (p : t) : t :=
  mk (id p) (name p) (unit p) (basePrice p) (category p) u
     (Some b) (currentStock p) (minStockLevel p) (discountPercentage p)
     (taxPercentage p).
End Product.

Module Customer.
Record t := mk {
  id : string;
  name : string;
  phone : string;
  email : option string;
  address : option string;
  createdAt : Z
}.
End Customer.

Inductive Action := Created | Updated | Deleted.

Module ActivityLog.
Record t := mk {
  id : string;
  action : Action;
  timestamp : Z;
  details : string;
  entityName : string;
  customerName : string;
  amount : Z;
  metadata : option Sale.t
}.

(** [{ ...log, customerName: n }] *)
Definition with_customerName (n : string) (l : t) : t :=
  mk (id l) (action l) (timestamp l) (details l) (entityName l) n
     (amount l) (metadata l).
End ActivityLog.

Module Expense.
Record t := mk {
  id : string;
  description : string;
  amount : Z;
  date : Z;
  category : string
}.
End Expense.

Inductive LiabilityStatus := Active | Settled.

Module Liability.
Record t := mk {
  id : string;
  source : string;
  amount : Z;
  interestRate : Z;
  date : Z;
  dueDate : Z;
  status : LiabilityStatus
}.

(** [{ ...lib, status: s }] *)
Definition with_status (s : LiabilityStatus) (l : t) : t :=
  mk (id l) (source l) (amount l) (interestRate l) (date l) (dueDate l) s.
End Liability.

Inductive ThemeMode := light | dark | system.
Inductive DateSystem := AD | BS.
Inductive CurrencyCode :=
  | USD | NPR | INR | PKR | EUR | GBP | CAD | AUD | JPY | CNY | BRL | ZAR
  | AED | SAR | KES | NGN | CUSTOM.

Module Currency.
Record t := mk { code : string; symbol : string; name : string }.
End Currency.

(** ** The store: the ten state cells of [App] that are persisted *)

Record Store := mkStore {
  sales : list Sale.t;
  customers : list Customer.t;
  products : list Product.t;
  expenses : list Expense.t;
  liabilities : list Liability.t;
  logs : list ActivityLog.t;
  themeMode : ThemeMode;
  dateSystem : DateSystem;
  currencyCode : CurrencyCode;
  customCurrency : option Currency.t
}.

(** The initial values of the [useState] calls. *)
Definition initialStore : Store :=
  mkStore [] [] [] [] [] [] system BS USD None.

Definition setSales (f : list Sale.t -> list Sale.t) (st : Store) : Store :=
  mkStore (f (sales st)) (customers st) (products st) (expenses st)
          (liabilities st) (logs st) (themeMode st) (dateSystem st)
          (currencyCode st) (customCurrency st).

Definition setCustomers (f : list Customer.t -> list Customer.t) (st : Store) : Store :=
  mkStore (sales st) (f (customers st)) (products st) (expenses st)
          (liabilities st) (logs st) (themeMode st) (dateSystem st)
          (currencyCode st) (customCurrency st).

Definition setProducts (f : list Product.t -> list Product.t) (st : Store) : Store :=
  mkStore (sales st) (customers st) (f (products st)) (expenses st)
          (liabilities st) (logs st) (themeMode st) (dateSystem st)
          (currencyCode st) (customCurrency st).

Definition setExpenses (f : list Expense.t -> list Expense.t) (st : Store) : Store :=
  mkStore (sales st) (customers st) (products st) (f (expenses st))
          (liabilities st) (logs st) (themeMode st) (dateSystem st)
          (currencyCode st) (customCurrency st).

Definition setLiabilities (f : list Liability.t -> list Liability.t) (st : Store) : Store :=
  mkStore (sales st) (customers st) (products st) (expenses st)
          (f (liabilities st)) (logs st) (themeMode st) (dateSystem st)
          (currencyCode st) (customCurrency st).

Definition setLogs (f : list ActivityLog.t -> list ActivityLog.t) (st : Store) : Store :=
  mkStore (sales st) (customers st) (products st) (expenses st)
          (liabilities st) (f (logs st)) (themeMode st) (dateSystem st)
          (currencyCode st) (customCurrency st).

(** ** Clock and random source *)

Record Tick := mkTick {
  now : Z;          (* Date.now() *)
  random : string   (* Math.random(), as [+] renders it *)
}.

(** ** The activity log recorder *)

Definition newLog (tk : Tick) (action : Action) (entityName customerName : string)
    (amount : Z) (details : string) (metadata : option Sale.t) : ActivityLog.t :=
  ActivityLog.mk (toString (now tk) ++ random tk) action (now tk) details
                 entityName customerName amount metadata.

Definition recordActivity (tk : Tick) (action : Action)
    (entityName customerName : string) (amount : Z) (details : string)
    (metadata : option Sale.t) : Store -> Store :=
  setLogs (fun prev =>
    newLog tk action entityName customerName amount details metadata :: prev).

(** ** Sales *)

Definition findProduct (pid : string) (ps : list Product.t) : option Product.t :=
  find (fun p => Product.id p =? pid) ps.

Definition findCustomer (cid : string) (cs : list Customer.t) : option Customer.t :=
  find (fun c => Customer.id c =? cid) cs.

Definition findSale (sid : string) (ss : list Sale.t) : option Sale.t :=
  find (fun s => Sale.id s =? sid) ss.

(** [prev.map(p => p.id === pid ? { ...p, currentStock: f(p.currentStock) } : p)] *)
Definition mapStock (pid : string) (f : Z -> Z) (ps : list Product.t) : list Product.t :=
  map (fun p => if Product.id p =? pid
                then Product.with_currentStock (f (Product.currentStock p)) p
                else p) ps.

Definition addSale (tk : Tick) (newSale : Sale.t) (st : Store) : Store :=
  let p := findProduct (Sale.productId newSale) (products st) in
  let c := findCustomer (Sale.customerId newSale) (customers st) in
  let st := setSales (fun prev => newSale :: prev) st in
  let st := setProducts
              (mapStock (Sale.productId newSale)
                        (fun stock => Z.max 0 (stock - Sale.quantity newSale))) st in
  recordActivity tk Created
    (strOr (option_map Product.name p) "Unknown")
    (strOr (option_map Customer.name c) "Retail")
    (Sale.totalAmount newSale)
    ("Sold " ++ toString (Sale.quantity newSale) ++ " units") None st.

Definition updateSale (tk : Tick) (updatedSale : Sale.t) (st0 : Store) : Store :=
  match findSale (Sale.id updatedSale) (sales st0) with
  | None => st0
  | Some oldSale =>
      let st := setProducts (fun prev =>
                  let next := prev in
                  let next := mapStock (Sale.productId oldSale)
                                (fun stock => stock + Sale.quantity oldSale) next in
                  let next := mapStock (Sale.productId updatedSale)
                                (fun stock => Z.max 0 (stock - Sale.quantity updatedSale)) next in
                  next) st0 in
      let st := setSales
                  (map (fun s => if Sale.id s =? Sale.id updatedSale
                                 then updatedSale else s)) st in
      let p := findProduct (Sale.productId updatedSale) (products st0) in
      let c := findCustomer (Sale.customerId updatedSale) (customers st0) in
      recordActivity tk Updated
        (strOr (option_map Product.name p) "Unknown")
        (strOr (option_map Customer.name c) "Unknown")
        (Sale.totalAmount updatedSale)
        ("Adjusted quantity: " ++ toString (Sale.quantity updatedSale)
           ++ ", Status: " ++ PaymentStatus_toString (Sale.paymentStatus updatedSale))
        None st
  end.

Definition deleteSale (tk : Tick) (id : string) (st0 : Store) : Store :=
  let st :=
    match findSale id (sales st0) with
    | Some saleToDelete =>
        let p := findProduct (Sale.productId saleToDelete) (products st0) in
        let c := findCustomer (Sale.customerId saleToDelete) (customers st0) in
        recordActivity tk Deleted
          (strOr (option_map Product.name p) "Unknown")
          (strOr (option_map Customer.name c) "Unknown")
          (Sale.totalAmount saleToDelete)
          "Transaction removed from ledger" (Some saleToDelete) st0
    | None => st0
    end in
  setSales (filter (fun s => negb (Sale.id s =? id))) st.

Definition alreadyPresent : string :=
  "This record is already present in the active ledger.".

(** The result is the new store and the messages shown by [alert]. *)
Definition restoreSale (tk : Tick) (log : ActivityLog.t) (st0 : Store)
    : Store * list string :=
  match ActivityLog.metadata log with
  | None => (st0, [])
  | Some saleToRestore =>
      if existsb (fun s => Sale.id s =? Sale.id saleToRestore) (sales st0)
      then (st0, [alreadyPresent])
      else
        let st := setSales (fun prev => saleToRestore :: prev) st0 in
        let st := setProducts
                    (mapStock (Sale.productId saleToRestore)
                       (fun stock => Z.max 0 (stock - Sale.quantity saleToRestore))) st in
        let st := setLogs
                    (filter (fun l => negb (ActivityLog.id l =? ActivityLog.id log))) st in
        (recordActivity tk Created (ActivityLog.entityName log)
           (ActivityLog.customerName log) (ActivityLog.amount log)
           ("Restored archived transaction: " ++ ActivityLog.details log)
           None st, [])
  end.

(** ** Customers, logs, expenses, liabilities *)

Definition addCustomer (newCustomer : Customer.t) : Store -> Store :=
  setCustomers (fun prev => newCustomer :: prev).

Definition updateCustomer (updatedCustomer : Customer.t) (st0 : Store) : Store :=
  let oldCustomer := findCustomer (Customer.id updatedCustomer) (customers st0) in
  let st := setCustomers
              (map (fun c => if Customer.id c =? Customer.id updatedCustomer
                             then updatedCustomer else c)) st0 in
  match oldCustomer with
  | Some oldCustomer =>
      if negb (Customer.name oldCustomer =? Customer.name updatedCustomer)
      then setLogs
             (map (fun log =>
                     if ActivityLog.customerName log =? Customer.name oldCustomer
                     then ActivityLog.with_customerName (Customer.name updatedCustomer) log
                     else log)) st
      else st
  | None => st
  end.

Definition deleteCustomer (id : string) (st : Store) : Store :=
  let st := setCustomers (filter (fun c => negb (Customer.id c =? id))) st in
  setSales (filter (fun s => negb (Sale.customerId s =? id))) st.

Definition deleteLog (id : string) : Store -> Store :=
  setLogs (filter (fun l => negb (ActivityLog.id l =? id))).

Definition addExpense (exp : Expense.t) : Store -> Store :=
  setExpenses (fun prev => exp :: prev).

Definition updateExpense (updatedExp : Expense.t) : Store -> Store :=
  setExpenses (map (fun e => if Expense.id e =? Expense.id updatedExp
                             then updatedExp else e)).

Definition deleteExpense (id : string) : Store -> Store :=
  setExpenses (filter (fun e => negb (Expense.id e =? id))).

Definition addLiability (lib : Liability.t) : Store -> Store :=
  setLiabilities (fun prev => lib :: prev).

Definition updateLiability (updatedLib : Liability.t) : Store -> Store :=
  setLiabilities (map (fun l => if Liability.id l =? Liability.id updatedLib
                                then updatedLib else l)).

Definition settleLiability (id : string) : Store -> Store :=
  setLiabilities (map (fun lib => if Liability.id lib =? id
                                  then Liability.with_status Settled lib else lib)).

(** ** Products *)

Definition updateProduct (updatedProduct : Product.t) : Store -> Store :=
  setProducts (map (fun p => if Product.id p =? Product.id updatedProduct
                             then updatedProduct else p)).

Definition deleteProduct (id : string) (st : Store) : Store :=
  let st := setProducts (filter (fun p => negb (Product.id p =? id))) st in
  setSales (filter (fun s => negb (Sale.productId s =? id))) st.

Definition updateStock (productId : string) (newStock : Z) : Store -> Store :=
  setProducts (mapStock productId (fun _ => newStock)).

(** The continuation of [addProduct] and of [addProductsBulk] after
    [await generateProductImage(p.name)] returned [imageUrl] ([None] is
    [null]) for the product with id [pid]:
    [setProducts(prev => prev.map(item => item.id === p.id ?
       { ...item, imageUrl: imageUrl || undefined, isGeneratingImage: false } : item))]. *)
Definition imageGenerated (pid : string) (imageUrl : option string) : Store -> Store :=
  setProducts (map (fun item => if Product.id item =? pid
                                then Product.with_image (strOrUndefined imageUrl) false item
                                else item)).

(** [addProductsBulk], up to the point where the handler returns; the image
    requests it started complete later, each through [imageGenerated]. *)
Definition addProductsBulk (newProducts : list Product.t) (st : Store) : Store :=
  let st := setSales (fun _ => []) st in
  let st := setCustomers (fun _ => []) st in
  let st := setExpenses (fun _ => []) st in
  let st := setLiabilities (fun _ => []) st in
  let st := setLogs (fun _ => []) st in
  let prodsWithLoading := map (Product.with_isGeneratingImage true) newProducts in
  setProducts (fun _ => prodsWithLoading) st.

(** The image requests of [addProductsBulk] complete in some order, each
    with some result. *)
Definition imagesGenerated (results : list (string * option string)) (st : Store) : Store :=
  fold_left (fun st r => imageGenerated (fst r) (snd r) st) results st.

(** ** Bulk import of sales *)

Module Row.
Record t := mk {
  DateAD : string;
  Customer : string;
  Product : string;
  Category : option string;
  Quantity : Z;
  Unit : option string;
  Amount : Z;
  Status : option string
}.
End Row.

(** [xs.find(pred)] returns a reference to the first element that satisfies
    [pred]; an assignment to a field of the result changes that element of
    the array.  [mutateFirst pred f xs] is the array after such an
    assignment. *)
Fixpoint mutateFirst {A : Type} (pred : A -> bool) (f : A -> A) (xs : list A) : list A :=
  match xs with
  | [] => []
  | x :: r => if pred x then f x :: r else x :: mutateFirst pred f r
  end.

(** The three local arrays of [bulkImportSales]. *)
Record ImportState := mkImport {
  newSales : list Sale.t;
  currentProducts : list Product.t;
  currentCustomers : list Customer.t
}.

Section BulkImport.

(** [new Date(s).getTime()]; [None] is [NaN]. *)
Variable Date_getTime : string -> option Z.
(** [Date.now()] while the row of a given index is processed. *)
Variable clock : nat -> Z.

Definition sameName (a b : string) : bool :=
  trim (toLowerCase a) =? trim (toLowerCase b).

(** The body of [parsedRows.forEach((row, index) => ...)]. *)
Definition importRow (index : nat) (row : Row.t) (acc : ImportState) : ImportState :=
  let t := clock index in
  let idx := toString (Z.of_nat index) in
  let '(customer, custs) :=
    match find (fun c => sameName (Customer.name c) (Row.Customer row))
               (currentCustomers acc) with
    | Some c => (c, currentCustomers acc)
    | None =>
        let c := Customer.mk ("CUST-" ++ toString t ++ "-" ++ idx)
                             (Row.Customer row) "" None None t in
        (c, (currentCustomers acc ++ [c])%list)
    end in
  let '(product, prods) :=
    match find (fun p => sameName (Product.name p) (Row.Product row))
               (currentProducts acc) with
    | Some p => (p, currentProducts acc)
    | None =>
        let p := Product.mk ("PROD-" ++ toString t ++ "-" ++ idx)
                   (Row.Product row)
                   (strOr (Row.Unit row) "kg")
                   (inject_Z (Row.Amount row) / inject_Z (numOr (Row.Quantity row) 1))%Q
                   (strOr (Row.Category row) "General")
                   None (Some true) 0 5 None None in
        (p, (currentProducts acc ++ [p])%list)
    end in
  let rawStatus := toLowerCase (trim (strOr (Row.Status row) "Paid")) in
  let finalStatus := if rawStatus =? "paid" then Paid else Pending in
  let saleDate := match Date_getTime (Row.DateAD row) with
                  | Some d => numOr d t
                  | None => t
                  end in
  let sale := Sale.mk ("SALE-" ++ toString t ++ "-" ++ idx)
                (Customer.id customer) (Product.id product)
                (Row.Quantity row) (Row.Amount row) saleDate finalStatus
                (Some "Bulk Imported (New Session)") in
  (* product.currentStock = Math.max(0, product.currentStock - row.Quantity) *)
  let prods := mutateFirst
                 (fun p => sameName (Product.name p) (Row.Product row))
                 (fun p => Product.with_currentStock
                             (Z.max 0 (Product.currentStock p - Row.Quantity row)) p)
                 prods in
  mkImport (newSales acc ++ [sale])%list prods custs.

Fixpoint importRows (index : nat) (rows : list Row.t) (acc : ImportState) : ImportState :=
  match rows with
  | [] => acc
  | row :: rest => importRows (S index) rest (importRow index row acc)
  end.

Definition bulkImportSales (parsedRows : list Row.t) (st : Store) : Store :=
  let st := setExpenses (fun _ => []) st in
  let st := setLiabilities (fun _ => []) st in
  let st := setLogs (fun _ => []) st in
  let acc := importRows 0 parsedRows (mkImport [] [] []) in
  let st := setSales (fun _ => newSales acc) st in
  let st := setProducts (fun _ => currentProducts acc) st in
  setCustomers (fun _ => currentCustomers acc) st.

End BulkImport.

(** ** The persistence effect

    The third [useEffect] of [App] runs after every render in which one of
    its dependencies (the six collections, the four configuration scalars,
    [user], [isOfflineMode]) changed.  React first runs the cleanup that the
    previous run returned ([clearTimeout(timer)]), then the body.  Time is
    in milliseconds; a timer fires once the clock has reached its deadline.
    [setTimeout] adds a timeout to the pending ones of the page and returns
    its id; only [clearTimeout] with that id, or its firing, removes it.
    The [saveStatus] indicator and its timeouts are not part of the
    model. *)

(** What [triggerSync] captured when the timer was set. *)
Record Closure := mkClosure {
  c_user : option string;
  c_isOfflineMode : bool;
  c_data : Store
}.

(** A flush: [localStorage.setItem(STORAGE_KEY, ...)] or
    [syncToCloud(user.uid, ...)], with the snapshot and its [lastUpdated]. *)
Inductive Write :=
  | LocalWrite (data : Store) (lastUpdated : Z)
  | CloudWrite (uid : string) (data : Store) (lastUpdated : Z).

(** A pending timeout whose callback is [triggerSync]. *)
Record Timer := mkTimer {
  timerId : nat;                        (* what [setTimeout] returned *)
  due : Z;                              (* its deadline *)
  callback : Closure                    (* what [triggerSync] captured *)
}.

Record Sync := mkSync {
  firstSync : bool;                     (* firstSync.current *)
  timers : list Timer;                  (* the pending timeouts, in the order
                                           they were set *)
  nextTimer : nat;                      (* the id the next [setTimeout] returns *)
  cleanup : option nat;                 (* the timeout that the cleanup returned
                                           by the last run of the effect clears;
                                           [None] when that run returned none *)
  writes : list Write                   (* the flushes so far, oldest first *)
}.

(** [clearTimeout(id)] *)
Definition clearTimeout (id : nat) (s : Sync) : Sync :=
  mkSync (firstSync s)
         (filter (fun tm => negb (Nat.eqb (timerId tm) id)) (timers s))
         (nextTimer s) (cleanup s) (writes s).

(** [setTimeout(triggerSync, delay)] at time [t], with what the callback
    captured: the new state, in which the timeout is pending, and its id. *)
Definition setTimeout (c : Closure) (t delay : Z) (s : Sync) : Sync * nat :=
  (mkSync (firstSync s)
          (timers s ++ [mkTimer (nextTimer s) (t + delay) c])%list
          (S (nextTimer s)) (cleanup s) (writes s),
   nextTimer s).

(** React runs the cleanup that the last run of the effect returned, if it
    returned one: [() => clearTimeout(timer)]. *)
Definition runCleanup (s : Sync) : Sync :=
  match cleanup s with
  | Some id => clearTimeout id s
  | None => s
  end.

(** The run of the effect returned [ret]: a cleanup for the timeout [id], or
    nothing. *)
Definition returned (ret : option nat) (s : Sync) : Sync :=
  mkSync (firstSync s) (timers s) (nextTimer s) ret (writes s).

(** [firstSync.current = false] *)
Definition firstSyncDone (s : Sync) : Sync :=
  mkSync false (timers s) (nextTimer s) (cleanup s) (writes s).

Definition triggerSync (t : Z) (c : Closure) : list Write :=
  if c_isOfflineMode c then [LocalWrite (c_data c) t]
  else match c_user c with
       | Some uid => [CloudWrite uid (c_data c) t]
       | None => []
       end.

(** [!user && !isOfflineMode] *)
Definition noSession (user : option string) (isOfflineMode : bool) : bool :=
  (match user with None => true | Some _ => false end) && negb isOfflineMode.

(** The effect, run at time [t] with the values of the render. *)
Definition syncEffect (t : Z) (user : option string) (isOfflineMode : bool)
    (st : Store) (s : Sync) : Sync :=
  (* cleanup of the previous run *)
  let s := runCleanup s in
  if noSession user isOfflineMode
  then returned None s
  else if firstSync s then returned None (firstSyncDone s)
  else
    let '(s, timer) := setTimeout (mkClosure user isOfflineMode st) t 1000 s in
    returned (Some timer) s.

(** The clock reaches [t]: the timeouts that are due fire, in the order
    they were set (which is the order of their deadlines, the delay being
    the same for all), and are pending no more. *)
Definition elapse (t : Z) (s : Sync) : Sync :=
  mkSync (firstSync s)
         (filter (fun tm => negb (due tm <=? t)%Z) (timers s))
         (nextTimer s) (cleanup s)
         (writes s
          ++ flat_map (fun tm => triggerSync (due tm) (callback tm))
                      (filter (fun tm => (due tm <=? t)%Z) (timers s)))%list.

(** A change of the store rendered at time [t], under a fixed session. *)
Definition changed (user : option string) (isOfflineMode : bool)
    (s : Sync) (e : Z * Store) : Sync :=
  syncEffect (fst e) user isOfflineMode (snd e) (elapse (fst e) s).

(** A burst of changes, in the order they happen. *)
Definition burst (user : option string) (isOfflineMode : bool)
    (changes : list (Z * Store)) (s : Sync) : Sync :=
  fold_left (changed user isOfflineMode) changes s.

(** What happens to the effect: a render in which a dependency changed, or
    time passing.  The timeouts that are due at the time of a render have
    fired before it. *)
Inductive SyncEvent :=
  | Rendered (t : Z) (user : option string) (isOfflineMode : bool) (st : Store)
  | Waited (t : Z).

Definition syncStep (s : Sync) (e : SyncEvent) : Sync :=
  match e with
  | Rendered t user isOfflineMode st =>
      syncEffect t user isOfflineMode st (elapse t s)
  | Waited t => elapse t s
  end.

(** The state before the first run of the effect. *)
Definition mounted : Sync := mkSync true [] 0 None [].

Definition syncRun (events : list SyncEvent) : Sync :=
  fold_left syncStep events mounted.


(** ** Sequences of sale operations *)

Inductive SaleOp :=
  | AddSale (newSale : Sale.t)
  | UpdateSale (updatedSale : Sale.t)
  | DeleteSale (id : string)
  | RestoreSale (log : ActivityLog.t).

Definition step (st : Store) (e : Tick * SaleOp) : Store :=
  match snd e with
  | AddSale s => addSale (fst e) s st
  | UpdateSale s => updateSale (fst e) s st
  | DeleteSale id => deleteSale (fst e) id st
  | RestoreSale log => fst (restoreSale (fst e) log st)
  end.

Definition run (st : Store) (ops : list (Tick * SaleOp)) : Store :=
  fold_left step ops st.

(** The stock of the product with id [pid]. *)
Definition stockOf (pid : string) (st : Store) : option Z :=
  option_map Product.currentStock (findProduct pid (products st)).

(** *** The bookkeeping of the stock-conservation property

    The quantity that a sale charges to the product [pid]. *)
Definition charge (pid : string) (s : Sale.t) : Z :=
  if Sale.productId s =? pid then Sale.quantity s else 0.

(** What an operation adds to the quantity outstanding against [pid]:
    [addSale] and an effective [restoreSale] charge their sale, an
    effective [updateSale] reverses the charge of the stored sale and
    charges the new one, [deleteSale] reverses nothing. *)
Definition charged (pid : string) (st : Store) (op : SaleOp) : Z :=
  match op with
  | AddSale s => charge pid s
  | UpdateSale s =>
      match findSale (Sale.id s) (sales st) with
      | Some old => charge pid s - charge pid old
      | None => 0
      end
  | DeleteSale _ => 0
  | RestoreSale log =>
      match ActivityLog.metadata log with
      | Some s =>
          if existsb (fun x => Sale.id x =? Sale.id s) (sales st) then 0
          else charge pid s
      | None => 0
      end
  end.

(** The quantity outstanding against [pid] after the operations [ops],
    started in [st]. *)
Fixpoint outstanding (pid : string) (st : Store) (ops : list (Tick * SaleOp)) : Z :=
  match ops with
  | [] => 0
  | e :: rest => charged pid st (snd e) + outstanding pid (step st e) rest
  end.



(** [Number.MAX_SAFE_INTEGER]: up to this magnitude the whole numbers are
    doubles, and a sum or difference of two of them that stays within it is
    computed exactly. *)
Definition MAX_SAFE_INTEGER : Z := 2 ^ 53 - 1.

Definition isSafeInteger (n : Z) : bool := (Z.abs n <=? MAX_SAFE_INTEGER)%Z.

(** The stock that the operation finds for [pid], the quantities it adds
    to it and takes from it, and the sums and differences it computes on
    the way are safe integers: the arithmetic of the program, which is that
    of doubles, is then the arithmetic of whole numbers. *)
Definition exact (pid : string) (st : Store) (op : SaleOp) : bool :=
  match stockOf pid st with
  | None => true
  | Some stock =>
      match op with
      | AddSale s =>
          isSafeInteger stock && isSafeInteger (charge pid s)
          && isSafeInteger (stock - charge pid s)
      | UpdateSale s =>
          match findSale (Sale.id s) (sales st) with
          | Some old =>
              isSafeInteger stock && isSafeInteger (charge pid old)
              && isSafeInteger (stock + charge pid old)
              && isSafeInteger (charge pid s)
              && isSafeInteger (stock + charge pid old - charge pid s)
          | None => true
          end
      | DeleteSale _ => true
      | RestoreSale log =>
          match ActivityLog.metadata log with
          | Some s =>
              if existsb (fun x => Sale.id x =? Sale.id s) (sales st) then true
              else isSafeInteger stock && isSafeInteger (charge pid s)
                   && isSafeInteger (stock - charge pid s)
          | None => true
          end
      end
  end.

Fixpoint allExact (pid : string) (st : Store) (ops : list (Tick * SaleOp)) : bool :=
  match ops with
  | [] => true
  | e :: rest => exact pid st (snd e) && allExact pid (step st e) rest
  end.



(** ** Products: single additions and image regeneration ([App.tsx]) *)

(** [addProduct], up to its [await]; the image request it started
    completes later through [imageGenerated (Product.id newProduct)]. *)
Definition addProduct (newProduct : Product.t) (st : Store) : Store :=
  let isDuplicate :=
    existsb (fun p => sameName (Product.name p) (Product.name newProduct))
            (products st) in
  if isDuplicate then st
  else setProducts
         (fun prev => (prev ++ [Product.with_isGeneratingImage true newProduct])%list)
         st.



(** ** Loading a saved state ([App.tsx])

    The object that [JSON.parse] returns for a stored snapshot or a backup
    file, as the ten tests [if (data.x)] see it: a field is [None] when it
    is absent or falsy.  An array, also an empty one, is truthy. *)
Module Data.
Record t := mk {
  sales : option (list Sale.t);
  customers : option (list Customer.t);
  products : option (list Product.t);
  expenses : option (list Expense.t);
  liabilities : option (list Liability.t);
  logs : option (list ActivityLog.t);
  themeMode : option ThemeMode;
  dateSystem : option DateSystem;
  currencyCode : option CurrencyCode;
  customCurrency : option Currency.t
}.
End Data.

Definition setThemeMode (v : ThemeMode) (st : Store) : Store :=
  mkStore (sales st) (customers st) (products st) (expenses st)
          (liabilities st) (logs st) v (dateSystem st)
          (currencyCode st) (customCurrency st).

Definition setDateSystem (v : DateSystem) (st : Store) : Store :=
  mkStore (sales st) (customers st) (products st) (expenses st)
          (liabilities st) (logs st) (themeMode st) v
          (currencyCode st) (customCurrency st).

Definition setCurrencyCode (v : CurrencyCode) (st : Store) : Store :=
  mkStore (sales st) (customers st) (products st) (expenses st)
          (liabilities st) (logs st) (themeMode st) (dateSystem st)
          v (customCurrency st).

Definition setCustomCurrency (v : option Currency.t) (st : Store) : Store :=
  mkStore (sales st) (customers st) (products st) (expenses st)
          (liabilities st) (logs st) (themeMode st) (dateSystem st)
          (currencyCode st) v.

(** [if (v) setX(v)] *)
Definition whenPresent {A : Type} (v : option A) (setX : A -> Store -> Store)
    (st : Store) : Store :=
  match v with
  | Some x => setX x st
  | None => st
  end.

(** The ten lines [if (data.sales) setSales(data.sales); ...] that the two
    hydration paths and [handleMasterRestore] share. *)
Definition loadData (data : Data.t) (st : Store) : Store :=
  let st := whenPresent (Data.sales data) (fun v => setSales (fun _ => v)) st in
  let st := whenPresent (Data.customers data) (fun v => setCustomers (fun _ => v)) st in
  let st := whenPresent (Data.products data) (fun v => setProducts (fun _ => v)) st in
  let st := whenPresent (Data.expenses data) (fun v => setExpenses (fun _ => v)) st in
  let st := whenPresent (Data.liabilities data) (fun v => setLiabilities (fun _ => v)) st in
  let st := whenPresent (Data.logs data) (fun v => setLogs (fun _ => v)) st in
  let st := whenPresent (Data.themeMode data) setThemeMode st in
  let st := whenPresent (Data.dateSystem data) setDateSystem st in
  let st := whenPresent (Data.currencyCode data) setCurrencyCode st in
  whenPresent (Data.customCurrency data) (fun v => setCustomCurrency (Some v)) st.

Definition masterDataRestored : string := "Master Data Restored.".

Definition handleMasterRestore (data : Data.t) (st : Store) : Store * list string :=
  (loadData data st, [masterDataRestored]).

(** The hydration effect in offline mode: [stored] is what
    [localStorage.getItem(STORAGE_KEY)] parses to, [None] when nothing is
    stored or the text does not parse. *)
Definition hydrateOffline (stored : option Data.t) (st : Store) : Store :=
  match stored with
  | Some data => loadData data st
  | None => st
  end.

(** What [JSON.parse(JSON.stringify(x))] gives for the state object [x]
    built from the store, which is [dataToSave] in the persistence effect
    and [masterState] for a backup: the six arrays and the three
    enumerations are truthy, [customCurrency] is [null] or an object. *)
Definition savedData (st : Store) : Data.t :=
  Data.mk (Some (sales st)) (Some (customers st)) (Some (products st))
          (Some (expenses st)) (Some (liabilities st)) (Some (logs st))
          (Some (themeMode st)) (Some (dateSystem st)) (Some (currencyCode st))
          (customCurrency st).

(** ** The currency in use ([App.tsx], [types.ts]) *)

Definition CurrencyCode_toString (c : CurrencyCode) : string :=
  match c with
  | USD => "USD" | NPR => "NPR" | INR => "INR" | PKR => "PKR" | EUR => "EUR"
  | GBP => "GBP" | CAD => "CAD" | AUD => "AUD" | JPY => "JPY" | CNY => "CNY"
  | BRL => "BRL" | ZAR => "ZAR" | AED => "AED" | SAR => "SAR" | KES => "KES"
  | NGN => "NGN" | CUSTOM => "CUSTOM"
  end.

Definition usDollar : Currency.t := Currency.mk "USD" "$" "US Dollar".

Definition SUPPORTED_CURRENCIES : list Currency.t :=
  [ usDollar;
    Currency.mk "EUR" "€" "Euro";
    Currency.mk "GBP" "£" "British Pound";
    Currency.mk "INR" "₹" "Indian Rupee";
    Currency.mk "NPR" "₨" "Nepalese Rupee";
    Currency.mk "PKR" "₨" "Pakistani Rupee";
    Currency.mk "CAD" "C$" "Canadian Dollar";
    Currency.mk "AUD" "A$" "Australian Dollar";
    Currency.mk "JPY" "¥" "Japanese Yen";
    Currency.mk "CNY" "¥" "Chinese Yuan";
    Currency.mk "AED" "د.إ" "UAE Dirham";
    Currency.mk "SAR" "﷼" "Saudi Riyal";
    Currency.mk "KES" "KSh" "Kenyan Shilling";
    Currency.mk "NGN" "₦" "Nigerian Naira";
    Currency.mk "ZAR" "R" "South African Rand";
    Currency.mk "BRL" "R$" "Brazilian Real" ].

(** The [useMemo] that computes [currency]. *)
Definition currency (currencyCode : CurrencyCode) (customCurrency : option Currency.t)
    : Currency.t :=
  match currencyCode, customCurrency with
  | CUSTOM, Some c => c
  | _, _ =>
      match find (fun c => Currency.code c =? CurrencyCode_toString currencyCode)
                 SUPPORTED_CURRENCIES with
      | Some c => c
      | None => usDollar
      end
  end.

(** ** Callers of the store operations *)

(** [xs.sort(cmp)]: the sort of an array is stable, and [cmp a b <= 0]
    keeps [a] before [b]. *)
Fixpoint insertSorted {A : Type} (cmp : A -> A -> Z) (x : A) (l : list A) : list A :=
  match l with
  | [] => [x]
  | y :: r => if (cmp x y <=? 0)%Z then x :: l else y :: insertSorted cmp x r
  end.

Definition Array_sort {A : Type} (cmp : A -> A -> Z) (l : list A) : list A :=
  fold_right (insertSorted cmp) [] l.

(** The double quote of a template string. *)
Definition dquote : string := String (ascii_of_nat 34) EmptyString.


(** [{ ...c, name: n, phone: ph }] *)
Definition Customer_with_name_phone (n ph : string) (c : Customer.t) : Customer.t :=
  Customer.mk (Customer.id c) n ph (Customer.email c) (Customer.address c)
              (Customer.createdAt c).

(** [{ ...s, paymentStatus: s.paymentStatus === 'Paid' ? 'Pending' : 'Paid' }] *)
Definition Sale_toggled (s : Sale.t) : Sale.t :=
  Sale.mk (Sale.id s) (Sale.customerId s) (Sale.productId s) (Sale.quantity s)
          (Sale.totalAmount s) (Sale.date s)
          (match Sale.paymentStatus s with Paid => Pending | Pending => Paid end)
          (Sale.notes s).

(** [{ ...s, date: d }] *)
Definition Sale_with_date (d : Z) (s : Sale.t) : Sale.t :=
  Sale.mk (Sale.id s) (Sale.customerId s) (Sale.productId s) (Sale.quantity s)
          (Sale.totalAmount s) d (Sale.paymentStatus s) (Sale.notes s).

(** *** The stock screen ([StockManager]) *)
Module StockManager.

Inductive AdjustmentMode := add | remove | set.

Definition visibleProducts (st : Store) : list Product.t :=
  filter (fun p =>
            let hasActiveSales :=
              existsb (fun s => Sale.productId s =? Product.id p) (sales st) in
            (0 <? Product.currentStock p)%Z || hasActiveSales)
         (products st).

Definition lowStockProducts (st : Store) : list Product.t :=
  filter (fun p => (Product.currentStock p <=? Product.minStockLevel p)%Z)
         (visibleProducts st).

Definition calculateNewStock (adjustmentMode : AdjustmentMode) (editValue : Z)
    (current : Z) : Z :=
  match adjustmentMode with
  | add => current + editValue
  | remove => Z.max 0 (current - editValue)
  | set => Z.max 0 editValue
  end.

Definition handleSave (adjustmentMode : AdjustmentMode) (editValue : Z)
    (product : Product.t) : Store -> Store :=
  let finalValue :=
    calculateNewStock adjustmentMode editValue (Product.currentStock product) in
  updateStock (Product.id product) finalValue.

End StockManager.

(** *** The customer screen ([CustomerList]) *)
Module CustomerList.

Record Stats := mkStats {
  count : nat;
  totalSpent : Z;
  outstanding : Z;
  paid : Z;
  custSales : list Sale.t;
  deletionLogs : list ActivityLog.t
}.

(** [xs.reduce((sum, s) => sum + s.totalAmount, 0)] *)
Definition sumAmounts (xs : list Sale.t) : Z :=
  fold_left (fun sum s => sum + Sale.totalAmount s) xs 0.

Definition isPending (s : Sale.t) : bool :=
  match Sale.paymentStatus s with Pending => true | Paid => false end.

Definition isPaid (s : Sale.t) : bool :=
  match Sale.paymentStatus s with Paid => true | Pending => false end.

(** The [useMemo] that computes [customerStats]; [selectedCustomerId] is
    [None] for [null], and the empty string is falsy as well. *)
Definition customerStats (selectedCustomerId : option string) (st : Store)
    : option Stats :=
  match selectedCustomerId with
  | None => None
  | Some cid =>
      if cid =? "" then None
      else
        match findCustomer cid (customers st) with
        | None => None
        | Some selectedCustomer =>
            let custSales :=
              Array_sort (fun a b => Sale.date b - Sale.date a)
                (filter (fun s => Sale.customerId s =? cid) (sales st)) in
            let totalSpent := sumAmounts custSales in
            let outstanding := sumAmounts (filter isPending custSales) in
            let paid := sumAmounts (filter isPaid custSales) in
            let deletionLogs :=
              Array_sort
                (fun a b => ActivityLog.timestamp b - ActivityLog.timestamp a)
                (filter (fun l => ActivityLog.customerName l
                                  =? Customer.name selectedCustomer) (logs st)) in
            Some (mkStats (List.length custSales) totalSpent outstanding paid
                          custSales deletionLogs)
        end
  end.

(** [confirmToggleSale] is the sale whose status the user confirmed to
    change, [None] for [null]. *)
Definition handleToggleConfirm (tk : Tick) (confirmToggleSale : option Sale.t)
    (st : Store) : Store :=
  match confirmToggleSale with
  | Some s => updateSale tk (Sale_toggled s) st
  | None => st
  end.

(** The result is the new store and the error shown ([editCustError]);
    [selectedCustomer] is the customer of the open profile. *)
Definition handleUpdateCustomerDetails (editCustName editCustPhone : string)
    (selectedCustomer : option Customer.t) (st : Store) : Store * option string :=
  match selectedCustomer with
  | None => (st, None)
  | Some selectedCustomer =>
      let trimmedName := trim editCustName in
      if trimmedName =? "" then (st, None)
      else if existsb
                (fun c => negb (Customer.id c =? Customer.id selectedCustomer)
                          && (toLowerCase (Customer.name c) =? toLowerCase trimmedName))
                (customers st)
      then (st, Some ("Identity " ++ dquote ++ trimmedName ++ dquote
                      ++ " already exists."))
      else (updateCustomer
              (Customer_with_name_phone trimmedName (trim editCustPhone)
                                        selectedCustomer) st,
            None)
  end.

End CustomerList.

(** *** The catalog screen ([ProductManager]) *)
Module ProductManager.


End ProductManager.

(** *** Several sales from one handler ([BillingManager])

    [handleProcessCheckout] calls [onAddSale] once for each item of the
    bill.  All the calls go through the [addSale] of the render in which the
    handler was created, so each of them reads [products] and [customers]
    from the store of that render, while its updates apply to the state as
    the calls before left it. *)
Definition addSaleFrom (rendered : Store) (tk : Tick) (newSale : Sale.t)
    (st : Store) : Store :=
  let p := findProduct (Sale.productId newSale) (products rendered) in
  let c := findCustomer (Sale.customerId newSale) (customers rendered) in
  let st := setSales (fun prev => newSale :: prev) st in
  let st := setProducts
              (mapStock (Sale.productId newSale)
                        (fun stock => Z.max 0 (stock - Sale.quantity newSale))) st in
  recordActivity tk Created
    (strOr (option_map Product.name p) "Unknown")
    (strOr (option_map Customer.name c) "Retail")
    (Sale.totalAmount newSale)
    ("Sold " ++ toString (Sale.quantity newSale) ++ " units") None st.

(** The [billItems.forEach(item => onAddSale({ ... }))] of the checkout,
    given the sale built for each item and the clock and random values read
    while building it. *)
Definition checkoutSales (items : list (Tick * Sale.t)) (rendered : Store) : Store :=
  fold_left (fun st e => addSaleFrom rendered (fst e) (snd e) st) items rendered.

(** ** Notions used by the properties of the other operations *)

(** The name under which [addProduct] and [bulkImportSales] compare. *)
Definition normalName (n : string) : string := trim (toLowerCase n).

(** The string is written in ASCII.  On such strings [toLowerCase] and
    [trim] above are those of the program. *)
Fixpoint isAscii (s : string) : bool :=
  match s with
  | EmptyString => true
  | String c r => Nat.ltb (nat_of_ascii c) 128 && isAscii r
  end.

(** The sum of the magnitudes of the amounts.  When it is a safe integer,
    every sum of some of the amounts, taken in any order, is computed
    exactly by the program. *)
Definition sumMagnitudes (xs : list Sale.t) : Z :=
  fold_right (fun s sum => Z.abs (Sale.totalAmount s) + sum) 0 xs.

(** Every stored sale refers to a stored product. *)
Definition salesReferToProducts (st : Store) : Prop :=
  Forall (fun s => exists p, In p (products st) /\ Product.id p = Sale.productId s)
         (sales st).

(** Every stored sale refers to a stored customer. *)
Definition salesReferToCustomers (st : Store) : Prop :=
  Forall (fun s => exists c, In c (customers st) /\ Customer.id c = Sale.customerId s)
         (sales st).

(** A product apart from its stock. *)
Definition withoutStock (p : Product.t) : Product.t :=
  Product.with_currentStock 0 p.

(** The customer and the product that [bulkImportSales] synthesizes for a
    row whose names match none of the batch so far. *)
Definition rowCustomer (clock : nat -> Z) (index : nat) (row : Row.t) : Customer.t :=
  Customer.mk ("CUST-" ++ toString (clock index) ++ "-" ++ toString (Z.of_nat index))
              (Row.Customer row) "" None None (clock index).

Definition rowProduct (clock : nat -> Z) (index : nat) (row : Row.t) : Product.t :=
  Product.mk ("PROD-" ++ toString (clock index) ++ "-" ++ toString (Z.of_nat index))
             (Row.Product row)
             (strOr (Row.Unit row) "kg")
             (inject_Z (Row.Amount row) / inject_Z (numOr (Row.Quantity row) 1))%Q
             (strOr (Row.Category row) "General")
             None (Some true) 0 5 None None.

(** The sales of the import refer to customers and products of the import. *)
Definition importRefers (acc : ImportState) : Prop :=
  Forall (fun s => In (Sale.productId s) (map Product.id (currentProducts acc))
                   /\ In (Sale.customerId s) (map Customer.id (currentCustomers acc)))
         (newSales acc).

(** No two customers and no two products of the import have the same name
    apart from case and surrounding blanks. *)
Definition importNamesDistinct (acc : ImportState) : Prop :=
  NoDup (map (fun p => normalName (Product.name p)) (currentProducts acc))
  /\ NoDup (map (fun c => normalName (Customer.name c)) (currentCustomers acc)).

(** ** Notions used by the properties *)

(** A product apart from its image URL and its image-generation flag. *)
Definition withoutImage (p : Product.t) : Product.t :=
  Product.mk (Product.id p) (Product.name p) (Product.unit p)
             (Product.basePrice p) (Product.category p) None None
             (Product.currentStock p) (Product.minStockLevel p)
             (Product.discountPercentage p) (Product.taxPercentage p).

(** The operations on the liabilities. *)
Inductive LiabilityOp :=
  | AddLiability (lib : Liability.t)
  | UpdateLiability (updatedLib : Liability.t)
  | SettleLiability (id : string).

Definition liabilityStep (st : Store) (op : LiabilityOp) : Store :=
  match op with
  | AddLiability lib => addLiability lib st
  | UpdateLiability lib => updateLiability lib st
  | SettleLiability id => settleLiability id st
  end.

Definition liabilityRun (st : Store) (ops : list LiabilityOp) : Store :=
  fold_left liabilityStep ops st.

Definition isSettled (l : Liability.t) : bool :=
  match Liability.status l with Settled => true | Active => false end.

(** The operation re-activates: it is an [updateLiability] that is passed an
    [Active] record while a stored liability with the id of that record is
    [Settled]. *)
Definition reactivates (st : Store) (op : LiabilityOp) : bool :=
  match op with
  | UpdateLiability lib =>
      match Liability.status lib with
      | Active =>
          existsb (fun l => (Liability.id l =? Liability.id lib) && isSettled l)
                  (liabilities st)
      | Settled => false
      end
  | _ => false
  end.

(** No operation of the sequence re-activates in the state it is applied
    to. *)
Fixpoint neverReactivates (st : Store) (ops : list LiabilityOp) : bool :=
  match ops with
  | [] => true
  | op :: rest =>
      negb (reactivates st op) && neverReactivates (liabilityStep st op) rest
  end.

(** [l'] is what became of the liability [l]: the same id, and [Settled]
    if [l] was. *)
Definition staysSettled (l l' : Liability.t) : Prop :=
  Liability.id l' = Liability.id l
  /\ (Liability.status l = Settled -> Liability.status l' = Settled).

(** No product of the list has stock. *)
Definition noStock (ps : list Product.t) : Prop :=
  Forall (fun p => Product.currentStock p = 0) ps.

(** The pending timeouts are those that the cleanup of the last run of the
    effect clears. *)
Definition tidy (s : Sync) : Prop :=
  Forall (fun tm => cleanup s = Some (timerId tm)) (timers s).



(** ** Sample data *)

Definition kale (stock : Z) : Product.t :=
  Product.mk "p-kale" "Kale" "bunch" (inject_Z 40) "Vegetables" None None
             stock 5 None None.

Definition beans (stock : Z) : Product.t :=
  Product.mk "p-beans" "Beans" "kg" (inject_Z 90) "Vegetables" None None
             stock 5 None None.

Definition alice : Customer.t :=
  Customer.mk "c-alice" "Alice" "9800000000" None None 1700000000000.

Definition bob : Customer.t :=
  Customer.mk "c-bob" "Bob" "9811111111" None None 1700000000500.

(** A sale with id ["s-1"] to Alice. *)
Definition saleOf (productId : string) (quantity : Z) : Sale.t :=
  Sale.mk "s-1" "c-alice" productId quantity (40 * quantity) 1700000100000
          Paid None.

Definition farm (kaleStock beansStock : Z) : Store :=
  mkStore [] [alice; bob] [kale kaleStock; beans beansStock] [] [] []
          system BS NPR None.

Definition tick (n : Z) : Tick := mkTick (1700000200000 + n) "0.25".

(** The scenario of the specification: sell 4 bunches of kale, delete the
    sale, restore it from the log that the deletion left. *)
Definition kaleDeleted : ActivityLog.t :=
  newLog (tick 1) Deleted "Kale" "Alice" 160
         "Transaction removed from ledger" (Some (saleOf "p-kale" 4)).

Definition kaleScenario : list (Tick * SaleOp) :=
  [ (tick 0, AddSale (saleOf "p-kale" 4));
    (tick 1, DeleteSale "s-1");
    (tick 2, RestoreSale kaleDeleted) ].


Definition loanOf (id : string) (amount : Z) (status : LiabilityStatus)
    : Liability.t :=
  Liability.mk id "Cooperative" amount 12 1700000000000 1730000000000 status.

(** A settled loan and an active one. *)
Definition twoLoans : Store :=
  setLiabilities (fun _ => [loanOf "l-1" 50000 Settled; loanOf "l-2" 8000 Active])
                 initialStore.

(** The active loan is edited, a third loan is added, the second is
    settled, the first is edited as settled. *)
Definition loanOps : list LiabilityOp :=
  [ UpdateLiability (loanOf "l-2" 9000 Active);
    AddLiability (loanOf "l-3" 700 Active);
    SettleLiability "l-2";
    UpdateLiability (loanOf "l-1" 45000 Settled) ].

Definition loan (status : LiabilityStatus) : Liability.t :=
  Liability.mk "l-1" "Cooperative" 50000 12 1700000000000 1730000000000 status.

Definition importRowsSample : list Row.t :=
  [ Row.mk "2024-01-05" "Alice" "Kale" (Some "Vegetables") 4 (Some "bunch") 160 (Some "Paid");
    Row.mk "2024-01-06" "Bob" " kale " None 3 None 120 (Some "pending");
    Row.mk "" "alice" "Beans" (Some "") 2 (Some "kg") 180 None ].

(** A date parser for the samples: no date is recognised. *)
Definition noDate (s : string) : option Z := None.

Definition sampleClock (index : nat) : Z := 1700000300000 + Z.of_nat index.

Definition aliceSmith : Customer.t :=
  Customer.mk "c-alice" "Alice Smith" "9800000000" None None 1700000000000.

Definition logFor (id customerName : string) : ActivityLog.t :=
  ActivityLog.mk id Created 1700000150000 "Sold 4 units" "Kale" customerName
                 160 None.

Definition farmWithLogs : Store :=
  setLogs (fun _ => [logFor "g-1" "Alice"; logFor "g-2" "Bob"; logFor "g-3" "Alice"])
          (farm 6 7).

(** Ten edits of the kale stock, 100 ms apart. *)
Definition tenEdits : list (Z * Store) :=
  map (fun n => (100 * n, farm (10 - n) 7)) [0; 1; 2; 3; 4; 5; 6; 7; 8; 9].

(** The persistence state of a running offline session with nothing
    pending. *)
Definition idleSync : Sync := mkSync false [] 0 None [].

(** A batch with a negative quantity. *)
Definition importRowsReturn : list Row.t :=
  [ Row.mk "2024-01-07" "Alice" "Kale" None (-3) None (-120) None ].

(** Further sample data. *)
Definition spinach : Product.t :=
  Product.mk "p-spinach" "Spinach" "bunch" (inject_Z 30) "Vegetables" None None
             12 5 None None.

Definition kaleAgain : Product.t :=
  Product.mk "p-kale-2" "  KALE " "kg" (inject_Z 45) "Vegetables" None None
             3 1 None None.



Definition carol : Customer.t :=
  Customer.mk "c-carol" "Carol" "9822222222" None None 1700000001000.

(** A ledger with three sales of Alice and one of Bob. *)
Definition ledgerSale (id customerId : string) (amount date : Z)
    (status : PaymentStatus) : Sale.t :=
  Sale.mk id customerId "p-kale" 1 amount date status None.

Definition ledger : Store :=
  setSales (fun _ => [ ledgerSale "s-a" "c-alice" 100 1700000300000 Paid;
                       ledgerSale "s-b" "c-bob" 70 1700000400000 Paid;
                       ledgerSale "s-c" "c-alice" 40 1700000500000 Pending;
                       ledgerSale "s-d" "c-alice" 25 1700000300000 Pending ])
           farmWithLogs.

(** A bill of two items, both of kale. *)
Definition billSales : list (Tick * Sale.t) :=
  [ (tick 0, Sale.mk "s-10" "c-alice" "p-kale" 4 160 1700000600000 Paid None);
    (tick 1, Sale.mk "s-11" "c-alice" "p-kale" 9 360 1700000600000 Paid None) ].

(** * Properties *)

(** ** Lists *)

Section ListFacts.
Context {A : Type}.

Lemma find_map_stable (pred : A -> bool) (g : A -> A) (l : list A) :
  (forall x, pred (g x) = pred x) ->
  find pred (map g l) = option_map g (find pred l).
Proof.
  intros Hg. induction l as [|x l IH]; simpl; [reflexivity|].
  rewrite Hg. destruct (pred x); [reflexivity | exact IH].
Qed.

Lemma mutateFirst_Forall (P : A -> Prop) (pred : A -> bool) (f : A -> A) (l : list A) :
  (forall x, P x -> P (f x)) -> Forall P l -> Forall P (mutateFirst pred f l).
Proof.
  intros Hf. induction 1 as [|x l Hx Hl IH]; simpl; [constructor|].
  destruct (pred x); constructor; auto.
Qed.


End ListFacts.

(** A sale found by its id has that id. *)
Lemma findSale_id (sid : string) (ss : list Sale.t) (s : Sale.t) :
  findSale sid ss = Some s -> Sale.id s = sid /\ In s ss.
Proof.
  intros H. apply find_some in H. destruct H as [Hin Heq].
  apply String.eqb_eq in Heq. auto.
Qed.

(** When the ids of the stored sales are pairwise distinct, the sale that
    [sales.find] returns for an id is the stored sale with that id. *)
Lemma findSale_unique (ss : list Sale.t) (s : Sale.t) :
  NoDup (map Sale.id ss) -> In s ss -> findSale (Sale.id s) ss = Some s.
Proof.
  unfold findSale. induction ss as [|x ss IH]; simpl; [contradiction|].
  intros Hnd [->|Hin].
  - rewrite String.eqb_refl. reflexivity.
  - inversion Hnd as [|? ? Hx Hnd']; subst.
    destruct (Sale.id x =? Sale.id s) eqn:E.
    + apply String.eqb_eq in E. exfalso. apply Hx. rewrite E.
      apply in_map. exact Hin.
    + apply IH; assumption.
Qed.

(** ** Stock under the pointwise updates *)

Lemma findProduct_mapStock (pid x : string) (f : Z -> Z) (ps : list Product.t) :
  option_map Product.currentStock (findProduct pid (mapStock x f ps))
  = option_map (fun a => if pid =? x then f a else a)
               (option_map Product.currentStock (findProduct pid ps)).
Proof.
  unfold findProduct, mapStock.
  rewrite find_map_stable.
  - destruct (find _ ps) as [p|] eqn:E; simpl; [|reflexivity].
    apply find_some in E. destruct E as [_ E]. apply String.eqb_eq in E.
    rewrite E. destruct (pid =? x); reflexivity.
  - intros p. destruct (Product.id p =? x); reflexivity.
Qed.



Lemma products_deleteSale (tk : Tick) (id : string) (st : Store) :
  products (deleteSale tk id st) = products st.
Proof. unfold deleteSale. destruct (findSale id (sales st)); reflexivity. Qed.

Lemma stockOf_restoreSale (pid : string) (tk : Tick) (log : ActivityLog.t)
    (s : Sale.t) (st : Store) :
  ActivityLog.metadata log = Some s ->
  existsb (fun x => Sale.id x =? Sale.id s) (sales st) = false ->
  stockOf pid (fst (restoreSale tk log st))
  = option_map (fun a => if pid =? Sale.productId s
                         then Z.max 0 (a - Sale.quantity s) else a)
               (stockOf pid st).
Proof.
  intros Hm He. unfold stockOf, restoreSale. rewrite Hm, He. simpl.
  apply findProduct_mapStock.
Qed.





(** ** Stock conservation *)



(** Beyond the safe integers the condition fails, as it must: with a stock
    of 1 and a stored sale of 2^53, an [updateSale] that keeps the quantity
    computes 1 + 2^53, which no double holds. *)
Example unsafe_quantity_is_not_exact :
  allExact "p-kale"
    (setSales (fun _ => [saleOf "p-kale" (2 ^ 53)]) (farm 1 7))
    [(tick 1, UpdateSale (saleOf "p-kale" (2 ^ 53)))]
  = false.
Proof. vm_compute. reflexivity. Qed.

(** The scenario of the specification, evaluated: 10, then 6 after the sale,
    6 after its deletion, 2 after its restoration. *)
Example kale_scenario_stocks :
  map (fun n => stockOf "p-kale" (run (farm 10 7) (firstn n kaleScenario)))
      [0; 1; 2; 3]%nat
  = [Some 10; Some 6; Some 6; Some 2]
  /\ hd_error (logs (run (farm 10 7) (firstn 2 kaleScenario))) = Some kaleDeleted
  /\ map Sale.id (sales (run (farm 10 7) kaleScenario)) = ["s-1"]
  /\ map ActivityLog.action (logs (run (farm 10 7) kaleScenario)) = [Created; Created].
Proof. vm_compute. repeat split. Qed.


(** ** Update reconciliation *)



(** ** Deletion and restoration *)

(** C3.  When the store holds a sale with the given id, [deleteSale] removes
    the sales with that id, puts in front of the logs a [Deleted] log whose
    metadata is the sale found, and leaves the products, and so every
    stock, as they were. *)
Theorem deleteSale_keeps_stock (tk : Tick) (id : string) (s : Sale.t) (st : Store) :
  findSale id (sales st) = Some s ->
  sales (deleteSale tk id st) = filter (fun x => negb (Sale.id x =? id)) (sales st)
  /\ (forall x, In x (sales (deleteSale tk id st)) -> Sale.id x <> id)
  /\ ~ In s (sales (deleteSale tk id st))
  /\ (exists log,
        logs (deleteSale tk id st) = log :: logs st
        /\ ActivityLog.action log = Deleted
        /\ ActivityLog.metadata log = Some s)
  /\ products (deleteSale tk id st) = products st
  /\ (forall pid, stockOf pid (deleteSale tk id st) = stockOf pid st).
Proof.
  intros Hfind.
  assert (Hs : sales (deleteSale tk id st)
               = filter (fun x => negb (Sale.id x =? id)) (sales st))
    by (unfold deleteSale; rewrite Hfind; reflexivity).
  assert (Hall : forall x, In x (sales (deleteSale tk id st)) -> Sale.id x <> id).
  { intros x Hx. rewrite Hs in Hx. apply filter_In in Hx. destruct Hx as [_ Hx].
    apply negb_true_iff in Hx. apply String.eqb_neq. exact Hx. }
  split; [exact Hs|]. split; [exact Hall|]. split.
  - intros Hin. apply (Hall s Hin). apply findSale_id in Hfind. tauto.
  - split.
    + unfold deleteSale. rewrite Hfind. simpl. eexists.
      split; [reflexivity|]. split; reflexivity.
    + split; [apply products_deleteSale|].
      intros pid. unfold stockOf. rewrite products_deleteSale. reflexivity.
Qed.

Lemma deleteSale_keeps_stock_witness :
  stockOf "p-kale" (deleteSale (tick 1) "s-1" (run (farm 10 7) (firstn 1 kaleScenario)))
  = Some 6
  /\ exists log,
       logs (deleteSale (tick 1) "s-1" (run (farm 10 7) (firstn 1 kaleScenario)))
       = log :: logs (run (farm 10 7) (firstn 1 kaleScenario))
       /\ ActivityLog.action log = Deleted
       /\ ActivityLog.metadata log = Some (saleOf "p-kale" 4).
Proof.
  destruct (deleteSale_keeps_stock (tick 1) "s-1" (saleOf "p-kale" 4)
              (run (farm 10 7) (firstn 1 kaleScenario)))
    as [_ [_ [_ [Hlog [_ Hstock]]]]].
  - vm_compute. reflexivity.
  - split; [rewrite Hstock; vm_compute; reflexivity | exact Hlog].
Defined.

Lemma restoreSale_present (tk : Tick) (log : ActivityLog.t) (s : Sale.t) (st : Store) :
  ActivityLog.metadata log = Some s ->
  existsb (fun x => Sale.id x =? Sale.id s) (sales st) = true ->
  restoreSale tk log st = (st, [alreadyPresent]).
Proof. intros Hm He. unfold restoreSale. rewrite Hm, He. reflexivity. Qed.

(** After [restoreSale] ran on a log with a snapshot, the store holds a
    sale with the id of the snapshot. *)
Lemma restoreSale_holds_id (tk : Tick) (log : ActivityLog.t) (s : Sale.t) (st : Store) :
  ActivityLog.metadata log = Some s ->
  existsb (fun x => Sale.id x =? Sale.id s) (sales (fst (restoreSale tk log st))) = true.
Proof.
  intros Hm. unfold restoreSale. rewrite Hm.
  destruct (existsb _ (sales st)) eqn:He; simpl.
  - exact He.
  - rewrite String.eqb_refl. reflexivity.
Qed.

(** C4.  Without a snapshot in the log [restoreSale] does nothing.  With a
    snapshot [s]: when a sale with the id of [s] is stored, it alerts and
    leaves the store as it is; otherwise it puts [s] in front of the sales,
    takes the quantity of [s] from the stock of its product (floored at 0),
    removes the logs with the id of the source log and puts a [Created] log
    in front, and touches nothing else.  A second call with the same log
    always takes the alert branch, so it cannot insert the sale twice. *)
Theorem restoreSale_guard_and_effect (tk tk' : Tick) (log : ActivityLog.t) (st : Store) :
  match ActivityLog.metadata log with
  | None => restoreSale tk log st = (st, [])
  | Some s =>
      (if existsb (fun x => Sale.id x =? Sale.id s) (sales st)
       then restoreSale tk log st = (st, [alreadyPresent])
       else
         snd (restoreSale tk log st) = []
         /\ sales (fst (restoreSale tk log st)) = s :: sales st
         /\ products (fst (restoreSale tk log st))
            = mapStock (Sale.productId s)
                (fun stock => Z.max 0 (stock - Sale.quantity s)) (products st)
         /\ stockOf (Sale.productId s) (fst (restoreSale tk log st))
            = option_map (fun a => Z.max 0 (a - Sale.quantity s))
                         (stockOf (Sale.productId s) st)
         /\ logs (fst (restoreSale tk log st))
            = newLog tk Created (ActivityLog.entityName log)
                (ActivityLog.customerName log) (ActivityLog.amount log)
                ("Restored archived transaction: " ++ ActivityLog.details log) None
              :: filter (fun l => negb (ActivityLog.id l =? ActivityLog.id log))
                        (logs st)
         /\ Forall (fun l => ActivityLog.id l <> ActivityLog.id log)
                   (tl (logs (fst (restoreSale tk log st))))
         /\ customers (fst (restoreSale tk log st)) = customers st
         /\ expenses (fst (restoreSale tk log st)) = expenses st
         /\ liabilities (fst (restoreSale tk log st)) = liabilities st)
      /\ restoreSale tk' log (fst (restoreSale tk log st))
         = (fst (restoreSale tk log st), [alreadyPresent])
  end.
Proof.
  destruct (ActivityLog.metadata log) as [s|] eqn:Hm.
  - split.
    + destruct (existsb _ (sales st)) eqn:He.
      * apply (restoreSale_present _ _ _ _ Hm He).
      * split; [unfold restoreSale; rewrite Hm, He; reflexivity|].
        split; [unfold restoreSale; rewrite Hm, He; reflexivity|].
        split; [unfold restoreSale; rewrite Hm, He; reflexivity|].
        split.
        { rewrite (stockOf_restoreSale _ _ _ _ _ Hm He).
          destruct (stockOf (Sale.productId s) st); simpl; [|reflexivity].
          rewrite String.eqb_refl. reflexivity. }
        split; [unfold restoreSale; rewrite Hm, He; reflexivity|].
        split.
        { unfold restoreSale. rewrite Hm, He. simpl.
          apply Forall_forall. intros l Hl. apply filter_In in Hl.
          destruct Hl as [_ Hl]. apply negb_true_iff in Hl.
          apply String.eqb_neq. exact Hl. }
        repeat split; unfold restoreSale; rewrite Hm, He; reflexivity.
    + apply (restoreSale_present _ _ s); [exact Hm|].
      apply restoreSale_holds_id. exact Hm.
  - unfold restoreSale. rewrite Hm. reflexivity.
Qed.

(** The scenario of the specification, continued: the sale restored from
    its log, and restored once more from the same log. *)
Example restoreSale_twice :
  map Sale.id (sales (run (farm 10 7) kaleScenario)) = ["s-1"]
  /\ restoreSale (tick 3) kaleDeleted (run (farm 10 7) kaleScenario)
     = (run (farm 10 7) kaleScenario, [alreadyPresent]).
Proof. split; vm_compute; reflexivity. Qed.

(** ** Bulk import of products *)

Lemma imageGenerated_frame (pid : string) (url : option string) (st : Store) :
  sales (imageGenerated pid url st) = sales st
  /\ customers (imageGenerated pid url st) = customers st
  /\ expenses (imageGenerated pid url st) = expenses st
  /\ liabilities (imageGenerated pid url st) = liabilities st
  /\ logs (imageGenerated pid url st) = logs st
  /\ themeMode (imageGenerated pid url st) = themeMode st
  /\ dateSystem (imageGenerated pid url st) = dateSystem st
  /\ currencyCode (imageGenerated pid url st) = currencyCode st
  /\ customCurrency (imageGenerated pid url st) = customCurrency st
  /\ map withoutImage (products (imageGenerated pid url st))
     = map withoutImage (products st).
Proof.
  repeat split. unfold imageGenerated. simpl. rewrite map_map.
  apply map_ext. intros p. destruct (Product.id p =? pid); reflexivity.
Qed.

Lemma imagesGenerated_frame (results : list (string * option string)) :
  forall st : Store,
  sales (imagesGenerated results st) = sales st
  /\ customers (imagesGenerated results st) = customers st
  /\ expenses (imagesGenerated results st) = expenses st
  /\ liabilities (imagesGenerated results st) = liabilities st
  /\ logs (imagesGenerated results st) = logs st
  /\ themeMode (imagesGenerated results st) = themeMode st
  /\ dateSystem (imagesGenerated results st) = dateSystem st
  /\ currencyCode (imagesGenerated results st) = currencyCode st
  /\ customCurrency (imagesGenerated results st) = customCurrency st
  /\ map withoutImage (products (imagesGenerated results st))
     = map withoutImage (products st).
Proof.
  induction results as [|r results IH]; intros st.
  - repeat split.
  - change (imagesGenerated (r :: results) st)
      with (imagesGenerated results (imageGenerated (fst r) (snd r) st)).
    specialize (IH (imageGenerated (fst r) (snd r) st)).
    pose proof (imageGenerated_frame (fst r) (snd r) st) as F.
    destruct IH as (I1 & I2 & I3 & I4 & I5 & I6 & I7 & I8 & I9 & I10).
    destruct F as (F1 & F2 & F3 & F4 & F5 & F6 & F7 & F8 & F9 & F10).
    repeat split; congruence.
Qed.

(** C5.  After [addProductsBulk], and after any of the image requests it
    started have completed with any result, the sales, customers, expenses,
    liabilities and logs are empty, the products are the imported ones
    apart from their image URL and image-generation flag (when the handler
    returns: the imported ones with the flag set), and the four
    configuration scalars are those of the store before. *)
Theorem addProductsBulk_wipes (newProducts : list Product.t)
    (results : list (string * option string)) (st : Store) :
  sales (imagesGenerated results (addProductsBulk newProducts st)) = []
  /\ customers (imagesGenerated results (addProductsBulk newProducts st)) = []
  /\ expenses (imagesGenerated results (addProductsBulk newProducts st)) = []
  /\ liabilities (imagesGenerated results (addProductsBulk newProducts st)) = []
  /\ logs (imagesGenerated results (addProductsBulk newProducts st)) = []
  /\ products (addProductsBulk newProducts st)
     = map (Product.with_isGeneratingImage true) newProducts
  /\ map withoutImage
         (products (imagesGenerated results (addProductsBulk newProducts st)))
     = map withoutImage newProducts
  /\ themeMode (imagesGenerated results (addProductsBulk newProducts st))
     = themeMode st
  /\ dateSystem (imagesGenerated results (addProductsBulk newProducts st))
     = dateSystem st
  /\ currencyCode (imagesGenerated results (addProductsBulk newProducts st))
     = currencyCode st
  /\ customCurrency (imagesGenerated results (addProductsBulk newProducts st))
     = customCurrency st.
Proof.
  destruct (imagesGenerated_frame results (addProductsBulk newProducts st))
    as (I1 & I2 & I3 & I4 & I5 & I6 & I7 & I8 & I9 & I10).
  rewrite I1, I2, I3, I4, I5, I6, I7, I8, I9, I10.
  repeat split. simpl. rewrite map_map. apply map_ext.
  intros p. reflexivity.
Qed.

(** ** Liabilities *)

(** C6, as stated, fails: [updateLiability] stores the record it is given,
    so it returns a settled liability to [Active] when the record passed
    says so. *)
Lemma updateLiability_reactivates :
  map Liability.status
      (liabilities (setLiabilities (fun _ => [loan Settled]) initialStore))
  = [Settled]
  /\ map Liability.status
       (liabilities (updateLiability (loan Active)
          (setLiabilities (fun _ => [loan Settled]) initialStore)))
     = [Active].
Proof. split; reflexivity. Qed.

Lemma staysSettled_refl (l : Liability.t) : staysSettled l l.
Proof. split; auto. Qed.

Lemma Forall2_map_r_rel {A B : Type} (R : A -> B -> Prop) (g : A -> B) (l : list A) :
  (forall x, R x (g x)) -> Forall2 R l (map g l).
Proof. intros H. induction l; simpl; constructor; auto. Qed.

Lemma Forall2_staysSettled_trans (l1 l2 l3 : list Liability.t) :
  Forall2 staysSettled l1 l2 -> Forall2 staysSettled l2 l3 ->
  Forall2 staysSettled l1 l3.
Proof.
  intros H. revert l3. induction H as [|x y l1 l2 Hxy H12 IH]; intros l3 H23.
  - inversion H23. constructor.
  - inversion H23 as [|? z ? l3' Hyz H23']; subst. constructor.
    + destruct Hxy as [Hi Hs], Hyz as [Hi' Hs']. split; [congruence | auto].
    + apply IH. exact H23'.
Qed.

Lemma Forall2_map_r_in {A B : Type} (R : A -> B -> Prop) (g : A -> B) (l : list A) :
  (forall x, In x l -> R x (g x)) -> Forall2 R l (map g l).
Proof.
  induction l as [|x l IH]; intros H; simpl; constructor.
  - apply H. left. reflexivity.
  - apply IH. intros y Hy. apply H. right. exact Hy.
Qed.

Lemma Forall2_map_r_at {A B : Type} (R : A -> B -> Prop) (g : A -> B) (l : list A)
    (x : A) :
  Forall2 R l (map g l) -> In x l -> R x (g x).
Proof.
  induction l as [|y l IH]; intros H Hin; [destruct Hin|].
  simpl in H. inversion H; subst. destruct Hin as [->|Hin]; auto.
Qed.

(** One operation that does not re-activate keeps the stored liabilities
    in place, possibly behind a new one, and keeps the settled ones
    settled. *)
Lemma liabilityStep_staysSettled (st : Store) (op : LiabilityOp) :
  reactivates st op = false ->
  exists added,
    Forall2 staysSettled (liabilities st)
            (skipn added (liabilities (liabilityStep st op))).
Proof.
  intros Hop. destruct op as [lib|lib|id]; simpl in *.
  - exists 1%nat. simpl.
    rewrite <- (map_id (liabilities st)) at 2.
    apply Forall2_map_r_rel. apply staysSettled_refl.
  - exists 0%nat. simpl. apply Forall2_map_r_in. intros l Hl.
    destruct (Liability.id l =? Liability.id lib) eqn:E;
      [|apply staysSettled_refl].
    split; [symmetry; apply String.eqb_eq; exact E|].
    intros Hs. destruct (Liability.status lib) eqn:Elib; [|reflexivity].
    exfalso.
    assert (Hex : existsb (fun x => (Liability.id x =? Liability.id lib)
                                    && isSettled x) (liabilities st) = true).
    { apply existsb_exists. exists l. split; [exact Hl|].
      unfold isSettled. rewrite E, Hs. reflexivity. }
    rewrite Hex in Hop. discriminate.
  - exists 0%nat. simpl. apply Forall2_map_r_rel. intros l.
    destruct (Liability.id l =? id); [|apply staysSettled_refl].
    split; [reflexivity | intros _; reflexivity].
Qed.

(** An operation that re-activates does return a settled liability to
    [Active]. *)
Lemma reactivates_breaks (st : Store) (op : LiabilityOp) :
  reactivates st op = true ->
  ~ exists added,
      Forall2 staysSettled (liabilities st)
              (skipn added (liabilities (liabilityStep st op))).
Proof.
  intros Hop [added H]. destruct op as [lib|lib|id]; simpl in Hop;
    try discriminate.
  destruct (Liability.status lib) eqn:Elib; [|discriminate].
  apply existsb_exists in Hop. destruct Hop as [l [Hl Hmatch]].
  apply andb_prop in Hmatch. destruct Hmatch as [Hid Hset].
  simpl in H. pose proof (Forall2_length H) as Hlen.
  rewrite length_skipn, length_map in Hlen.
  assert (Hpos : (0 < List.length (liabilities st))%nat)
    by (destruct (liabilities st); [destruct Hl | simpl; lia]).
  assert (added = 0%nat) by lia. subst added. simpl in H.
  apply (Forall2_map_r_at _ _ _ l) in H; [|exact Hl].
  cbv beta in H. rewrite Hid in H. destruct H as [_ H].
  unfold isSettled in Hset. destruct (Liability.status l); [discriminate|].
  specialize (H eq_refl). congruence.
Qed.

Lemma Forall2_skipn {A B : Type} (R : A -> B -> Prop) (n : nat) :
  forall (l : list A) (m : list B),
  Forall2 R l m -> Forall2 R (skipn n l) (skipn n m).
Proof.
  induction n as [|n IH]; intros l m H; simpl; [exact H|].
  destruct H; [constructor | apply IH; assumption].
Qed.

Lemma skipn_skipn_add {A : Type} (n k : nat) :
  forall l : list A, skipn n (skipn k l) = skipn (k + n) l.
Proof.
  induction k as [|k IH]; intros l; simpl; [reflexivity|].
  destruct l; [destruct n; reflexivity | apply IH].
Qed.

(** C6, as amended.  Through any sequence of [addLiability],
    [settleLiability] and [updateLiability] calls none of which is an
    [updateLiability] passed an [Active] record for the id of a liability
    that is [Settled] at that moment, every stored liability keeps its place
    behind the added ones, keeps its id, and stays [Settled] once it is.
    [updateLiability] stores the record it is passed in place of every
    stored liability with the id of the record, so that the status becomes
    that of the record; and a call that is passed an [Active] record for the
    id of a settled liability does return that liability to [Active]. *)
Theorem settled_stays_settled (ops : list LiabilityOp) (st : Store) :
  neverReactivates st ops = true ->
  (exists added,
     Forall2 staysSettled (liabilities st)
             (skipn added (liabilities (liabilityRun st ops))))
  /\ (forall (updatedLib : Liability.t) (st' : Store),
        Forall2 (fun l l' => l' = if Liability.id l =? Liability.id updatedLib
                                  then updatedLib else l)
                (liabilities st') (liabilities (updateLiability updatedLib st')))
  /\ (forall (op : LiabilityOp) (st' : Store),
        reactivates st' op = true ->
        ~ exists added,
            Forall2 staysSettled (liabilities st')
                    (skipn added (liabilities (liabilityStep st' op)))).
Proof.
  intros Hops. split; [|split].
  - revert st Hops. induction ops as [|op ops IH]; intros st Hops.
    + exists 0%nat. simpl. rewrite <- (map_id (liabilities st)) at 2.
      apply Forall2_map_r_rel. apply staysSettled_refl.
    + simpl in Hops. apply andb_prop in Hops. destruct Hops as [Hop Hops].
      apply negb_true_iff in Hop.
      destruct (liabilityStep_staysSettled st op Hop) as [a1 H1].
      destruct (IH (liabilityStep st op) Hops) as [a2 H2].
      exists (a2 + a1)%nat. simpl.
      eapply Forall2_staysSettled_trans; [exact H1|].
      rewrite <- skipn_skipn_add. apply Forall2_skipn. exact H2.
  - intros lib st'. unfold updateLiability. simpl.
    apply Forall2_map_r_rel. intros l. reflexivity.
  - intros op st'. apply reactivates_breaks.
Qed.

(** A settled loan stays settled while the active loan beside it is edited
    with an [Active] record, a loan is added, the second loan is settled and
    the first is edited as settled. *)
Lemma settled_stays_settled_witness :
  map (fun l => (Liability.id l, isSettled l)) (liabilities twoLoans)
    = [("l-1", true); ("l-2", false)]
  /\ map (fun l => (Liability.id l, isSettled l))
         (liabilities (liabilityRun twoLoans loanOps))
    = [("l-3", false); ("l-1", true); ("l-2", true)]
  /\ exists added,
       Forall2 staysSettled (liabilities twoLoans)
               (skipn added (liabilities (liabilityRun twoLoans loanOps))).
Proof.
  destruct (settled_stays_settled loanOps twoLoans) as [H _].
  - vm_compute. reflexivity.
  - split; [vm_compute; reflexivity|]. split; [vm_compute; reflexivity | exact H].
Defined.

(** ** Customers *)

(** C7.  When [updateCustomer] finds the stored customer [old] for the id
    of [updatedCustomer], it replaces the customers with that id; if the
    name changed, it rewrites the customer name of the logs that carry the
    old name and leaves every other log as it is; if the name did not
    change, it leaves the logs as they are.  Nothing else changes. *)
Theorem updateCustomer_cascades (updatedCustomer old : Customer.t) (st : Store) :
  findCustomer (Customer.id updatedCustomer) (customers st) = Some old ->
  customers (updateCustomer updatedCustomer st)
    = map (fun c => if Customer.id c =? Customer.id updatedCustomer
                    then updatedCustomer else c) (customers st)
  /\ In updatedCustomer (customers (updateCustomer updatedCustomer st))
  /\ (if Customer.name old =? Customer.name updatedCustomer
      then logs (updateCustomer updatedCustomer st) = logs st
      else Forall2 (fun l l' =>
                      if ActivityLog.customerName l =? Customer.name old
                      then l' = ActivityLog.with_customerName
                                  (Customer.name updatedCustomer) l
                      else l' = l)
                   (logs st) (logs (updateCustomer updatedCustomer st)))
  /\ sales (updateCustomer updatedCustomer st) = sales st
  /\ products (updateCustomer updatedCustomer st) = products st
  /\ expenses (updateCustomer updatedCustomer st) = expenses st
  /\ liabilities (updateCustomer updatedCustomer st) = liabilities st.
Proof.
  intros Hfind. unfold updateCustomer. rewrite Hfind.
  destruct (Customer.name old =? Customer.name updatedCustomer) eqn:E; simpl.
  - repeat split.
    apply find_some in Hfind. destruct Hfind as [Hin Hid].
    apply in_map_iff. exists old. rewrite Hid. auto.
  - repeat split.
    + apply find_some in Hfind. destruct Hfind as [Hin Hid].
      apply in_map_iff. exists old. rewrite Hid. auto.
    + apply Forall2_map_r_rel. intros l.
      destruct (ActivityLog.customerName l =? Customer.name old); reflexivity.
Qed.

(** The example of the specification: Alice becomes Alice Smith. *)
Lemma updateCustomer_cascades_witness :
  Forall2 (fun l l' =>
             if ActivityLog.customerName l =? "Alice"
             then l' = ActivityLog.with_customerName "Alice Smith" l
             else l' = l)
          (logs farmWithLogs) (logs (updateCustomer aliceSmith farmWithLogs))
  /\ map ActivityLog.customerName (logs (updateCustomer aliceSmith farmWithLogs))
     = ["Alice Smith"; "Bob"; "Alice Smith"].
Proof.
  destruct (updateCustomer_cascades aliceSmith alice farmWithLogs)
    as (_ & _ & H & _).
  - vm_compute. reflexivity.
  - split; [exact H | vm_compute; reflexivity].
Defined.

(** C8.  [deleteCustomer] removes the customers with the given id and the
    sales whose customer has that id, so that no sale of that customer is
    left, and leaves the products, expenses, liabilities and logs as they
    are. *)
Theorem deleteCustomer_cascades (id : string) (st : Store) :
  customers (deleteCustomer id st)
    = filter (fun c => negb (Customer.id c =? id)) (customers st)
  /\ Forall (fun c => Customer.id c <> id) (customers (deleteCustomer id st))
  /\ sales (deleteCustomer id st)
    = filter (fun s => negb (Sale.customerId s =? id)) (sales st)
  /\ filter (fun s => Sale.customerId s =? id) (sales (deleteCustomer id st)) = []
  /\ products (deleteCustomer id st) = products st
  /\ expenses (deleteCustomer id st) = expenses st
  /\ liabilities (deleteCustomer id st) = liabilities st
  /\ logs (deleteCustomer id st) = logs st.
Proof.
  unfold deleteCustomer. simpl. repeat split.
  - apply Forall_forall. intros c Hc. apply filter_In in Hc.
    destruct Hc as [_ Hc]. apply negb_true_iff in Hc.
    apply String.eqb_neq. exact Hc.
  - induction (sales st) as [|s ss IH]; simpl; [reflexivity|].
    destruct (Sale.customerId s =? id) eqn:E; simpl; [exact IH|].
    rewrite E. exact IH.
Qed.

(** ** Bulk import of sales *)

Section BulkImportFacts.
Variable Date_getTime : string -> option Z.
Variable clock : nat -> Z.

Lemma importRow_noStock (index : nat) (row : Row.t) (acc : ImportState) :
  0 <= Row.Quantity row ->
  noStock (currentProducts acc) ->
  noStock (currentProducts (importRow Date_getTime clock index row acc)).
Proof.
  intros Hq Hacc. unfold importRow.
  destruct (find _ (currentCustomers acc)); destruct (find _ (currentProducts acc));
    simpl; apply mutateFirst_Forall;
    try (intros p Hp; simpl; rewrite Hp; lia);
    try exact Hacc;
    apply Forall_app; (split; [exact Hacc | repeat constructor]).
Qed.

Lemma importRows_noStock (rows : list Row.t) :
  forall (index : nat) (acc : ImportState),
  Forall (fun r => 0 <= Row.Quantity r) rows ->
  noStock (currentProducts acc) ->
  noStock (currentProducts (importRows Date_getTime clock index rows acc)).
Proof.
  induction rows as [|row rows IH]; intros index acc Hrows Hacc; simpl.
  - exact Hacc.
  - inversion Hrows; subst. apply IH; [assumption|].
    apply importRow_noStock; assumption.
Qed.

End BulkImportFacts.

(** C10.  When no row of the batch has a negative quantity (in particular
    when all are positive), every product of the store after
    [bulkImportSales] has [currentStock] 0: a product is created with stock
    0 and each decrement of it is floored at 0. *)
Theorem bulkImportSales_no_stock (Date_getTime : string -> option Z)
    (clock : nat -> Z) (parsedRows : list Row.t) (st : Store) :
  Forall (fun r => 0 <= Row.Quantity r) parsedRows ->
  Forall (fun p => Product.currentStock p = 0)
         (products (bulkImportSales Date_getTime clock parsedRows st)).
Proof.
  intros Hrows. unfold bulkImportSales. simpl.
  apply importRows_noStock; [exact Hrows | constructor].
Qed.

Lemma bulkImportSales_no_stock_witness :
  Forall (fun p => Product.currentStock p = 0)
         (products (bulkImportSales noDate sampleClock importRowsSample (farm 6 7))).
Proof.
  apply (bulkImportSales_no_stock noDate sampleClock importRowsSample (farm 6 7)).
  repeat constructor; simpl; lia.
Defined.

(** Without the condition on the quantities the stock can become
    positive: [Math.max(0, 0 - (-3))] is 3. *)
Example bulkImportSales_negative_quantity :
  map Product.currentStock
      (products (bulkImportSales noDate sampleClock importRowsReturn (farm 6 7)))
  = [3].
Proof. vm_compute. reflexivity. Qed.

(** The sample batch, imported: two products and two customers are
    synthesized (names match apart from case and surrounding blanks), three
    sales are recorded, and the store before the import is replaced. *)
Example bulkImportSales_sample :
  map Product.name
      (products (bulkImportSales noDate sampleClock importRowsSample (farm 6 7)))
  = ["Kale"; "Beans"]
  /\ map Product.currentStock
      (products (bulkImportSales noDate sampleClock importRowsSample (farm 6 7)))
  = [0; 0]
  /\ map Customer.name
      (customers (bulkImportSales noDate sampleClock importRowsSample (farm 6 7)))
  = ["Alice"; "Bob"]
  /\ map (fun s => (Sale.id s, Sale.productId s, Sale.paymentStatus s))
      (sales (bulkImportSales noDate sampleClock importRowsSample (farm 6 7)))
  = [ ("SALE-1700000300000-0", "PROD-1700000300000-0", Paid);
      ("SALE-1700000300001-1", "PROD-1700000300000-0", Pending);
      ("SALE-1700000300002-2", "PROD-1700000300002-2", Paid) ].
Proof. vm_compute. repeat split. Qed.

(** ** Debounced persistence *)


(** The state before the first run of the effect is tidy, and the effect
    and the clock keep the state tidy: at any time the pending timeouts are
    those that the next cleanup clears. *)
Lemma tidy_initial : tidy mounted.
Proof. constructor. Qed.

Lemma tidy_elapse (t : Z) (s : Sync) : tidy s -> tidy (elapse t s).
Proof.
  unfold tidy. simpl. intros H. rewrite Forall_forall in *.
  intros tm Htm. apply filter_In in Htm. apply H. tauto.
Qed.

(** The cleanup of a tidy state leaves no timeout pending. *)
Lemma runCleanup_tidy (s : Sync) : tidy s -> timers (runCleanup s) = [].
Proof.
  unfold tidy, runCleanup. intros H. destruct (cleanup s) as [id|] eqn:E.
  - simpl. induction H as [|tm l Htm Hl IH]; [reflexivity|]. simpl.
    injection Htm as ->. rewrite Nat.eqb_refl. simpl. exact IH.
  - destruct H as [|tm l Htm Hl]; [reflexivity | discriminate Htm].
Qed.


Lemma tidy_syncEffect (t : Z) (user : option string) (isOfflineMode : bool)
    (st : Store) (s : Sync) :
  tidy s -> tidy (syncEffect t user isOfflineMode st s).
Proof.
  intros H. pose proof (runCleanup_tidy s H) as E.
  unfold syncEffect. destruct (noSession user isOfflineMode).
  - unfold tidy. simpl. rewrite E. constructor.
  - destruct (firstSync (runCleanup s)).
    + unfold tidy. simpl. rewrite E. constructor.
    + unfold tidy. simpl. rewrite E. repeat constructor.
Qed.

(** Whatever renders and waits a session has seen, its state is tidy. *)
Lemma syncRun_tidy (events : list SyncEvent) : tidy (syncRun events).
Proof.
  unfold syncRun. generalize mounted, tidy_initial.
  induction events as [|e events IH]; intros s Hs; [exact Hs|].
  simpl. apply IH. destruct e as [t user isOfflineMode st|t]; simpl.
  - apply tidy_syncEffect. apply tidy_elapse. exact Hs.
  - apply tidy_elapse. exact Hs.
Qed.







(** The guard of the first run: the first run of the effect in a session
    schedules nothing and consumes the guard. *)
Example first_run_is_skipped :
  syncEffect 0 None true (farm 10 7) mounted = mkSync false [] 0 None [].
Proof. reflexivity. Qed.

(** What the cleanup is for: in a state with the timeouts of the ten edits
    all pending, a state that the effect with its cleanup never reaches,
    each of the ten flushes. *)
Example uncleared_timeouts_all_fire :
  List.length
    (writes (elapse 1900
       (mkSync false
          (map (fun e => mkTimer 0 (fst e + 1000) (mkClosure None true (snd e)))
               tenEdits)
          10 None [])))
  = 10%nat.
Proof. vm_compute. reflexivity. Qed.

(** * Further properties of the store operations *)

(** ** Pointwise replacement *)

Section ReplaceFacts.
Context {A : Type}.

(** Replacing by a key that no element has changes nothing. *)
Lemma map_replace_absent (key : A -> string) (k : string) (g : A -> A) (l : list A) :
  Forall (fun x => key x <> k) l ->
  map (fun x => if key x =? k then g x else x) l = l.
Proof.
  induction 1 as [|x l Hx Hl IH]; simpl; [reflexivity|].
  apply String.eqb_neq in Hx. rewrite Hx, IH. reflexivity.
Qed.

Lemma existsb_false_Forall (pred : A -> bool) (l : list A) :
  existsb pred l = false -> Forall (fun x => pred x = false) l.
Proof.
  induction l as [|x l IH]; simpl; intros H; constructor;
    apply orb_false_iff in H; destruct H; auto.
Qed.

Lemma find_none_Forall (pred : A -> bool) (l : list A) :
  find pred l = None -> Forall (fun x => pred x = false) l.
Proof.
  induction l as [|x l IH]; simpl; intros H; [constructor|].
  destruct (pred x) eqn:E; [discriminate|]. constructor; auto.
Qed.

End ReplaceFacts.

(** ** Single additions to the catalog *)

Lemma sameName_normalName (a b : string) :
  sameName a b = true <-> normalName a = normalName b.
Proof. unfold sameName, normalName. apply String.eqb_eq. Qed.

(** X1.  [addProduct] with a name that a stored product has, apart from
    case and surrounding blanks, leaves the store as it is. *)
Theorem addProduct_rejects_duplicate (newProduct p : Product.t) (st : Store) :
  In p (products st) ->
  normalName (Product.name p) = normalName (Product.name newProduct) ->
  addProduct newProduct st = st.
Proof.
  intros Hin Hname. unfold addProduct.
  assert (E : existsb (fun q => sameName (Product.name q) (Product.name newProduct))
                      (products st) = true).
  { apply existsb_exists. exists p. split; [exact Hin|].
    apply sameName_normalName. exact Hname. }
  rewrite E. reflexivity.
Qed.

Lemma addProduct_rejects_duplicate_witness :
  addProduct kaleAgain (farm 10 7) = farm 10 7.
Proof.
  apply (addProduct_rejects_duplicate kaleAgain (kale 10) (farm 10 7)).
  - left. reflexivity.
  - vm_compute. reflexivity.
Defined.

(** X2.  [addProduct] keeps the catalog free of two products with the same
    name apart from case and surrounding blanks. *)
Theorem addProduct_keeps_names_distinct (newProduct : Product.t) (st : Store) :
  NoDup (map (fun p => normalName (Product.name p)) (products st)) ->
  NoDup (map (fun p => normalName (Product.name p))
             (products (addProduct newProduct st))).
Proof.
  intros Hnd. unfold addProduct.
  destruct (existsb _ (products st)) eqn:E; [exact Hnd|].
  simpl. rewrite map_app. apply NoDup_app; [exact Hnd | |].
  - simpl. constructor; [intros [] | constructor].
  - intros n Hn [Hn'|[]]. simpl in Hn'. subst n.
    apply in_map_iff in Hn. destruct Hn as [q [Hq Hin]].
    apply existsb_false_Forall in E. rewrite Forall_forall in E.
    specialize (E q Hin). apply sameName_normalName in Hq.
    rewrite Hq in E. discriminate.
Qed.

Lemma addProduct_keeps_names_distinct_witness :
  NoDup (map (fun p => normalName (Product.name p))
             (products (addProduct spinach (farm 10 7)))).
Proof.
  apply (addProduct_keeps_names_distinct spinach (farm 10 7)).
  vm_compute. repeat constructor; simpl; intuition discriminate.
Defined.

(** X3.  With all names written in ASCII, a product with a new name and a
    new id is put at the end of the catalog with the image flag set; when
    its image request completes, the flag is cleared, the URL is the one
    returned (none for [null] or an empty string), and no other product has
    changed. *)
Theorem addProduct_then_image (newProduct : Product.t) (url : option string)
    (st : Store) :
  isAscii (Product.name newProduct) = true ->
  Forall (fun p => isAscii (Product.name p) = true) (products st) ->
  Forall (fun p => normalName (Product.name p) <> normalName (Product.name newProduct))
         (products st) ->
  Forall (fun p => Product.id p <> Product.id newProduct) (products st) ->
  products (addProduct newProduct st)
    = (products st ++ [Product.with_isGeneratingImage true newProduct])%list
  /\ products (imageGenerated (Product.id newProduct) url (addProduct newProduct st))
    = (products st ++ [Product.with_image (strOrUndefined url) false newProduct])%list.
Proof.
  intros _ _ Hnames Hids.
  assert (E : existsb (fun q => sameName (Product.name q) (Product.name newProduct))
                      (products st) = false).
  { apply not_true_is_false. intros H. apply existsb_exists in H.
    destruct H as [q [Hin Hq]]. rewrite Forall_forall in Hnames.
    apply (Hnames q Hin). apply sameName_normalName. exact Hq. }
  unfold addProduct. rewrite E. split; [reflexivity|].
  unfold imageGenerated. simpl. rewrite map_app.
  rewrite (map_replace_absent Product.id) by exact Hids.
  simpl. rewrite String.eqb_refl. reflexivity.
Qed.

Lemma addProduct_then_image_witness :
  products (imageGenerated "p-spinach" None (addProduct spinach (farm 10 7)))
  = [kale 10; beans 7; Product.with_image None false spinach].
Proof.
  destruct (addProduct_then_image spinach None (farm 10 7)) as [_ H].
  - vm_compute. reflexivity.
  - vm_compute. repeat constructor.
  - vm_compute. repeat constructor; discriminate.
  - vm_compute. repeat constructor; discriminate.
  - exact H.
Defined.

(** ** Regenerating an image *)

Lemma with_isGeneratingImage_withoutImage (b : bool) (p : Product.t) :
  withoutImage (Product.with_isGeneratingImage b p) = withoutImage p.
Proof. reflexivity. Qed.



(** ** Cascading deletions and the references of the sales *)

(** X5.  [deleteProduct] leaves no product with the id and no sale of it,
    touches nothing else, and keeps every remaining sale referring to a
    stored product if every sale did before. *)
Theorem deleteProduct_keeps_references (id : string) (st : Store) :
  salesReferToProducts st ->
  Forall (fun p => Product.id p <> id) (products (deleteProduct id st))
  /\ Forall (fun s => Sale.productId s <> id) (sales (deleteProduct id st))
  /\ salesReferToProducts (deleteProduct id st)
  /\ customers (deleteProduct id st) = customers st
  /\ expenses (deleteProduct id st) = expenses st
  /\ liabilities (deleteProduct id st) = liabilities st
  /\ logs (deleteProduct id st) = logs st.
Proof.
  intros Href. unfold deleteProduct, salesReferToProducts in *. simpl.
  repeat split.
  - apply Forall_forall. intros p Hp. apply filter_In in Hp.
    destruct Hp as [_ Hp]. apply negb_true_iff in Hp.
    apply String.eqb_neq. exact Hp.
  - apply Forall_forall. intros s Hs. apply filter_In in Hs.
    destruct Hs as [_ Hs]. apply negb_true_iff in Hs.
    apply String.eqb_neq. exact Hs.
  - rewrite Forall_forall in *. intros s Hs. apply filter_In in Hs.
    destruct Hs as [Hin Hs]. destruct (Href s Hin) as [p [Hp Hid]].
    exists p. split; [|exact Hid]. apply filter_In. split; [exact Hp|].
    rewrite Hid. exact Hs.
Qed.

Lemma deleteProduct_keeps_references_witness :
  salesReferToProducts
    (deleteProduct "p-beans" (setSales (fun _ => [saleOf "p-kale" 2]) (farm 6 7))).
Proof.
  destruct (deleteProduct_keeps_references "p-beans"
              (setSales (fun _ => [saleOf "p-kale" 2]) (farm 6 7)))
    as (_ & _ & H & _).
  - repeat constructor. exists (kale 6). split; [left|]; reflexivity.
  - exact H.
Defined.

(** X6.  [deleteCustomer] keeps every remaining sale referring to a stored
    customer if every sale did before. *)
Theorem deleteCustomer_keeps_references (id : string) (st : Store) :
  salesReferToCustomers st ->
  salesReferToCustomers (deleteCustomer id st).
Proof.
  intros Href. unfold deleteCustomer, salesReferToCustomers in *. simpl.
  rewrite Forall_forall in *. intros s Hs. apply filter_In in Hs.
  destruct Hs as [Hin Hs]. destruct (Href s Hin) as [c [Hc Hid]].
  exists c. split; [|exact Hid]. apply filter_In. split; [exact Hc|].
  rewrite Hid. exact Hs.
Qed.

Lemma deleteCustomer_keeps_references_witness :
  salesReferToCustomers
    (deleteCustomer "c-bob" (setSales (fun _ => [saleOf "p-kale" 2]) (farm 6 7))).
Proof.
  apply (deleteCustomer_keeps_references "c-bob"
           (setSales (fun _ => [saleOf "p-kale" 2]) (farm 6 7))).
  repeat constructor. exists alice. split; [left|]; reflexivity.
Defined.

(** ** What the sale operations leave alone *)

Lemma mapStock_withoutStock (pid : string) (f : Z -> Z) (ps : list Product.t) :
  map withoutStock (mapStock pid f ps) = map withoutStock ps.
Proof.
  unfold mapStock. rewrite map_map. apply map_ext. intros p.
  destruct (Product.id p =? pid); reflexivity.
Qed.

Lemma step_frame (st : Store) (e : Tick * SaleOp) :
  customers (step st e) = customers st
  /\ expenses (step st e) = expenses st
  /\ liabilities (step st e) = liabilities st
  /\ themeMode (step st e) = themeMode st
  /\ dateSystem (step st e) = dateSystem st
  /\ currencyCode (step st e) = currencyCode st
  /\ customCurrency (step st e) = customCurrency st
  /\ map withoutStock (products (step st e)) = map withoutStock (products st).
Proof.
  destruct e as [tk op]. unfold step. simpl.
  destruct op as [s|s|id|log]; simpl.
  - repeat split. apply mapStock_withoutStock.
  - unfold updateSale. destruct (findSale (Sale.id s) (sales st)); simpl;
      repeat split. rewrite !mapStock_withoutStock. reflexivity.
  - unfold deleteSale. destruct (findSale id (sales st)); simpl; repeat split.
  - unfold restoreSale. destruct (ActivityLog.metadata log) as [s|]; simpl;
      [|repeat split].
    destruct (existsb _ (sales st)); simpl; repeat split.
    apply mapStock_withoutStock.
Qed.

(** X7.  No sequence of [addSale], [updateSale], [deleteSale] and
    [restoreSale] changes the customers, the expenses, the liabilities or
    the configuration, and of the products it changes nothing but stocks:
    no product is added, removed, reordered or renamed. *)
Theorem sale_operations_frame (ops : list (Tick * SaleOp)) (st : Store) :
  customers (run st ops) = customers st
  /\ expenses (run st ops) = expenses st
  /\ liabilities (run st ops) = liabilities st
  /\ themeMode (run st ops) = themeMode st
  /\ dateSystem (run st ops) = dateSystem st
  /\ currencyCode (run st ops) = currencyCode st
  /\ customCurrency (run st ops) = customCurrency st
  /\ map withoutStock (products (run st ops)) = map withoutStock (products st).
Proof.
  revert st. induction ops as [|e ops IH]; intros st.
  - repeat split.
  - change (run st (e :: ops)) with (run (step st e) ops).
    destruct (IH (step st e)) as (I1 & I2 & I3 & I4 & I5 & I6 & I7 & I8).
    destruct (step_frame st e) as (F1 & F2 & F3 & F4 & F5 & F6 & F7 & F8).
    repeat split; congruence.
Qed.

(** ** Updates that keep product and quantity *)

Lemma with_currentStock_same (p : Product.t) :
  Product.with_currentStock (Product.currentStock p) p = p.
Proof. destruct p. reflexivity. Qed.

(** An [updateSale] whose sale has the product and the quantity of the
    stored one leaves the products as they are, provided the stock of that
    product is not negative. *)
Lemma updateSale_same_quantity (tk : Tick) (s old : Sale.t) (st : Store) :
  findSale (Sale.id s) (sales st) = Some old ->
  Sale.productId s = Sale.productId old ->
  Sale.quantity s = Sale.quantity old ->
  Forall (fun p => Product.id p = Sale.productId old -> 0 <= Product.currentStock p)
         (products st) ->
  products (updateSale tk s st) = products st.
Proof.
  intros Hfind Hp Hq Hnn. unfold updateSale. rewrite Hfind. simpl.
  rewrite Hp, Hq. unfold mapStock. rewrite map_map.
  rewrite <- (map_id (products st)) at 2.
  apply map_ext_in. intros p Hin.
  rewrite Forall_forall in Hnn. specialize (Hnn p Hin).
  destruct (Product.id p =? Sale.productId old) eqn:E; simpl.
  - rewrite E. apply String.eqb_eq in E. specialize (Hnn E).
    replace (Z.max 0 (Product.currentStock p + Sale.quantity old - Sale.quantity old))
      with (Product.currentStock p) by lia.
    destruct p. reflexivity.
  - rewrite E. reflexivity.
Qed.

(** X8.  Confirming the change of the payment status of a stored sale
    replaces the sale by one that differs in the status only and records
    the update.  When the stock of the product of the sale and the quantity
    are whole numbers, the stock is not negative, and the stock, the
    quantity and their sum are safe integers, so that the program adds the
    quantity back and takes it again exactly, every stock is left as it
    is. *)
Theorem handleToggleConfirm_keeps_stock (tk : Tick) (s : Sale.t) (st : Store) :
  findSale (Sale.id s) (sales st) = Some s ->
  isSafeInteger (Sale.quantity s) = true ->
  Forall (fun p => Product.id p = Sale.productId s ->
                   0 <= Product.currentStock p
                   /\ isSafeInteger (Product.currentStock p) = true
                   /\ isSafeInteger (Product.currentStock p + Sale.quantity s) = true)
         (products st) ->
  products (CustomerList.handleToggleConfirm tk (Some s) st) = products st
  /\ sales (CustomerList.handleToggleConfirm tk (Some s) st)
     = map (fun x => if Sale.id x =? Sale.id s then Sale_toggled s else x) (sales st)
  /\ Sale.paymentStatus (Sale_toggled s) <> Sale.paymentStatus s
  /\ Sale_toggled (Sale_toggled s) = s
  /\ map ActivityLog.action (logs (CustomerList.handleToggleConfirm tk (Some s) st))
     = Updated :: map ActivityLog.action (logs st).
Proof.
  intros Hfind _ Hnn. unfold CustomerList.handleToggleConfirm.
  split; [|split; [|split; [|split]]].
  - apply (updateSale_same_quantity tk (Sale_toggled s) s); auto.
    rewrite Forall_forall in *. intros p Hp Hid. apply (Hnn p Hp Hid).
  - unfold updateSale. simpl. rewrite Hfind. reflexivity.
  - destruct s as [? ? ? ? ? ? [] ?]; simpl; discriminate.
  - destruct s as [? ? ? ? ? ? [] ?]; reflexivity.
  - unfold updateSale. simpl. rewrite Hfind. reflexivity.
Qed.

Lemma handleToggleConfirm_keeps_stock_witness :
  products (CustomerList.handleToggleConfirm (tick 5) (Some (saleOf "p-kale" 4))
              (run (farm 3 7) [(tick 0, AddSale (saleOf "p-kale" 4))]))
  = [kale 0; beans 7].
Proof.
  destruct (handleToggleConfirm_keeps_stock (tick 5) (saleOf "p-kale" 4)
              (run (farm 3 7) [(tick 0, AddSale (saleOf "p-kale" 4))]))
    as [H _].
  - vm_compute. reflexivity.
  - vm_compute. reflexivity.
  - replace (products (run (farm 3 7) [(tick 0, AddSale (saleOf "p-kale" 4))]))
      with [kale 0; beans 7] by (vm_compute; reflexivity).
    constructor; [|constructor; [|constructor]].
    + intros _. split; [vm_compute; discriminate|].
      split; vm_compute; reflexivity.
    + intros Hid. vm_compute in Hid. discriminate Hid.
  - rewrite H. vm_compute. reflexivity.
Defined.

(** ** Deleting a sale and restoring it *)

Lemma filter_id_absent (id : string) (ss : list Sale.t) :
  existsb (fun x => Sale.id x =? id)
          (filter (fun x => negb (Sale.id x =? id)) ss) = false.
Proof.
  induction ss as [|x ss IH]; simpl; [reflexivity|].
  destruct (Sale.id x =? id) eqn:E; simpl; [exact IH|].
  rewrite E. exact IH.
Qed.

Lemma filter_all {A : Type} (pred : A -> bool) (l : list A) :
  Forall (fun x => pred x = true) l -> filter pred l = l.
Proof.
  induction 1 as [|x l Hx Hl IH]; simpl; [reflexivity|].
  rewrite Hx, IH. reflexivity.
Qed.

(** X9.  Deleting a stored sale and then restoring it from the log that
    the deletion wrote (whose id no other log has) succeeds without an
    alert: the sale is back, now in front of the stored sales, the deletion
    log is replaced by a [Created] log in front of the logs that were there
    before, the customers are untouched, and the quantity of the sale has
    been taken from the stock of its product a second time. *)
Theorem delete_then_restore (tk1 tk2 : Tick) (id : string) (s : Sale.t) (st : Store) :
  findSale id (sales st) = Some s ->
  Forall (fun l => ActivityLog.id l <> toString (now tk1) ++ random tk1) (logs st) ->
  exists log created,
    logs (deleteSale tk1 id st) = log :: logs st
    /\ ActivityLog.action log = Deleted
    /\ snd (restoreSale tk2 log (deleteSale tk1 id st)) = []
    /\ sales (fst (restoreSale tk2 log (deleteSale tk1 id st)))
       = s :: filter (fun x => negb (Sale.id x =? id)) (sales st)
    /\ logs (fst (restoreSale tk2 log (deleteSale tk1 id st))) = created :: logs st
    /\ ActivityLog.action created = Created
    /\ ActivityLog.metadata created = None
    /\ customers (fst (restoreSale tk2 log (deleteSale tk1 id st))) = customers st
    /\ stockOf (Sale.productId s) (fst (restoreSale tk2 log (deleteSale tk1 id st)))
       = option_map (fun a => Z.max 0 (a - Sale.quantity s))
                    (stockOf (Sale.productId s) st).
Proof.
  intros Hfind Hfresh.
  destruct (findSale_id _ _ _ Hfind) as [Hid _].
  unfold deleteSale. rewrite Hfind. simpl.
  eexists. eexists. split; [reflexivity|]. split; [reflexivity|].
  unfold restoreSale. simpl. rewrite Hid, filter_id_absent. simpl.
  rewrite String.eqb_refl. simpl.
  split; [reflexivity|]. split; [reflexivity|]. split.
  - f_equal. apply filter_all. rewrite Forall_forall in *. intros l Hl.
    apply negb_true_iff. apply String.eqb_neq. apply Hfresh. exact Hl.
  - split; [reflexivity|]. split; [reflexivity|]. split; [reflexivity|].
    unfold stockOf. simpl. rewrite findProduct_mapStock.
    destruct (option_map Product.currentStock
                (findProduct (Sale.productId s) (products st))); simpl;
      [rewrite String.eqb_refl|]; reflexivity.
Qed.

Lemma delete_then_restore_witness :
  exists log created,
    logs (deleteSale (tick 1) "s-1" (run (farm 10 7) (firstn 1 kaleScenario)))
      = log :: logs (run (farm 10 7) (firstn 1 kaleScenario))
    /\ sales (fst (restoreSale (tick 2) log
                     (deleteSale (tick 1) "s-1"
                        (run (farm 10 7) (firstn 1 kaleScenario)))))
       = [saleOf "p-kale" 4]
    /\ logs (fst (restoreSale (tick 2) log
                    (deleteSale (tick 1) "s-1"
                       (run (farm 10 7) (firstn 1 kaleScenario)))))
       = created :: logs (run (farm 10 7) (firstn 1 kaleScenario)).
Proof.
  destruct (delete_then_restore (tick 1) (tick 2) "s-1" (saleOf "p-kale" 4)
              (run (farm 10 7) (firstn 1 kaleScenario)))
    as (log & created & H1 & _ & _ & H4 & H5 & _).
  - vm_compute. reflexivity.
  - vm_compute. repeat constructor. discriminate.
  - exists log, created. split; [exact H1|]. split; [exact H4 | exact H5].
Defined.

(** ** Saving and loading *)

(** X10.  Loading what was saved from a store [st] into a store [st']
    gives [st] back, except that a store saved without a custom currency
    leaves the custom currency of [st'] in place; into the store of a new
    session it gives exactly [st]. *)
Theorem loadData_savedData (st st' : Store) :
  loadData (savedData st) st'
    = setCustomCurrency
        (match customCurrency st with
         | Some c => Some c
         | None => customCurrency st'
         end) st
  /\ hydrateOffline (Some (savedData st)) initialStore = st
  /\ fst (handleMasterRestore (savedData st) st) = st.
Proof.
  destruct st as [sa cu pr ex li lo th ds cc [c|]]; repeat split.
Qed.

(** A backup without custom currency, restored over a store that has one:
    the custom currency stays. *)
Example restore_keeps_custom_currency :
  customCurrency
    (fst (handleMasterRestore (savedData (farm 10 7))
            (setCustomCurrency (Some (Currency.mk "XAU" "Au" "Gold")) (farm 3 3))))
  = Some (Currency.mk "XAU" "Au" "Gold").
Proof. reflexivity. Qed.

(** ** The currency in use *)

(** X11.  Every code other than [CUSTOM] resolves to the entry of the table
    of supported currencies with that code; [CUSTOM] resolves to the custom
    currency when there is one, and to the US dollar when there is none. *)
Theorem currency_resolves (code : CurrencyCode) (custom : option Currency.t) :
  match code, custom with
  | CUSTOM, Some c => currency code custom = c
  | CUSTOM, None => currency code custom = usDollar
  | _, _ =>
      In (currency code custom) SUPPORTED_CURRENCIES
      /\ Currency.code (currency code custom) = CurrencyCode_toString code
  end.
Proof.
  destruct code, custom; try reflexivity;
    (split; [vm_compute; tauto | reflexivity]).
Qed.

(** ** Leaving the session with a flush pending *)

(** X12.  When the session ends (no user, not offline) while a flush is
    pending and not yet due, the cleanup of the effect clears its timeout
    and the effect schedules nothing: the pending snapshot is never
    written, however long one waits. *)
Theorem logout_drops_pending_flush (s : Sync) (t T : Z) (tm : Timer)
    (st : Store) :
  timers s = [tm] ->
  cleanup s = Some (timerId tm) ->
  t < due tm ->
  timers (changed None false s (t, st)) = []
  /\ writes (elapse T (changed None false s (t, st))) = writes s.
Proof.
  intros Htimers Hclean Hdue. destruct s as [f tms n cl ws].
  simpl in Htimers, Hclean. subst tms cl.
  assert (E : (due tm <=? t)%Z = false) by (apply Z.leb_gt; exact Hdue).
  unfold changed, syncEffect, elapse, runCleanup, clearTimeout. simpl.
  rewrite E. simpl. rewrite Nat.eqb_refl. simpl.
  rewrite !app_nil_r. split; reflexivity.
Qed.

Lemma logout_drops_pending_flush_witness :
  writes (elapse 5000 (changed None false (burst None true tenEdits idleSync)
                         (1000, farm 1 7))) = [].
Proof.
  destruct (logout_drops_pending_flush (burst None true tenEdits idleSync)
              1000 5000 (mkTimer 9 1900 (mkClosure None true (farm 1 7)))
              (farm 1 7))
    as [_ H].
  - vm_compute. reflexivity.
  - vm_compute. reflexivity.
  - simpl. lia.
  - exact H.
Defined.

(** ** Updates addressed to an id that is not stored *)

Lemma setProducts_same (st : Store) : setProducts (fun l => l) st = st.
Proof. destruct st. reflexivity. Qed.

(** X13.  An update addressed to an id that no stored record has changes
    nothing: no record is created, none is touched.  This holds for
    [updateProduct], [updateStock], [updateCustomer], [updateExpense],
    [updateLiability] and [settleLiability]. *)
Theorem update_of_absent_id (p : Product.t) (newStock : Z) (c : Customer.t)
    (e : Expense.t) (l : Liability.t) (st : Store) :
  Forall (fun x => Product.id x <> Product.id p) (products st) ->
  Forall (fun x => Customer.id x <> Customer.id c) (customers st) ->
  Forall (fun x => Expense.id x <> Expense.id e) (expenses st) ->
  Forall (fun x => Liability.id x <> Liability.id l) (liabilities st) ->
  updateProduct p st = st
  /\ updateStock (Product.id p) newStock st = st
  /\ updateCustomer c st = st
  /\ updateExpense e st = st
  /\ updateLiability l st = st
  /\ settleLiability (Liability.id l) st = st.
Proof.
  intros Hp Hc He Hl.
  assert (Hfind : findCustomer (Customer.id c) (customers st) = None).
  { unfold findCustomer. destruct (find _ (customers st)) as [x|] eqn:E;
      [|reflexivity].
    apply find_some in E. destruct E as [Hin E]. apply String.eqb_eq in E.
    rewrite Forall_forall in Hc. destruct (Hc x Hin E). }
  unfold updateProduct, updateStock, mapStock, updateCustomer, updateExpense,
    updateLiability, settleLiability.
  rewrite Hfind.
  unfold setProducts, setCustomers, setExpenses, setLiabilities.
  rewrite !(map_replace_absent Product.id) by exact Hp.
  rewrite (map_replace_absent Customer.id) by exact Hc.
  rewrite (map_replace_absent Expense.id) by exact He.
  rewrite !(map_replace_absent Liability.id) by exact Hl.
  destruct st. repeat split.
Qed.

Lemma update_of_absent_id_witness :
  updateStock "p-spinach" 40 (farm 10 7) = farm 10 7
  /\ settleLiability "l-1" (farm 10 7) = farm 10 7.
Proof.
  destruct (update_of_absent_id spinach 40 carol
              (Expense.mk "e-1" "Seeds" 500 1700000000000 "Seeds & Planting")
              (loan Active) (farm 10 7))
    as (_ & H2 & _ & _ & _ & H6).
  - repeat constructor; discriminate.
  - repeat constructor; discriminate.
  - constructor.
  - constructor.
  - split; [exact H2 | exact H6].
Defined.

(** ** The stock screen *)

(** X14.  Saving a stock adjustment of a stored product sets the stock of
    that product to the adjusted value and leaves the stock of every other
    product and the sales as they are; the value saved is not negative in
    the modes [remove] and [set], whatever was entered, and in the mode
    [add] as long as the sum is not negative. *)
Theorem handleSave_stock (mode : StockManager.AdjustmentMode) (editValue : Z)
    (product : Product.t) (st : Store) :
  findProduct (Product.id product) (products st) = Some product ->
  mode <> StockManager.add \/ 0 <= Product.currentStock product + editValue ->
  stockOf (Product.id product) (StockManager.handleSave mode editValue product st)
    = Some (StockManager.calculateNewStock mode editValue
              (Product.currentStock product))
  /\ 0 <= StockManager.calculateNewStock mode editValue
            (Product.currentStock product)
  /\ (forall pid, pid <> Product.id product ->
        stockOf pid (StockManager.handleSave mode editValue product st)
        = stockOf pid st)
  /\ sales (StockManager.handleSave mode editValue product st) = sales st.
Proof.
  intros Hfind Hmode. unfold StockManager.handleSave, updateStock.
  split; [|split; [|split]].
  - unfold stockOf. simpl. rewrite findProduct_mapStock, Hfind. simpl.
    rewrite String.eqb_refl. reflexivity.
  - destruct mode; simpl; try lia. destruct Hmode as [H|H]; [congruence | lia].
  - intros pid Hpid. unfold stockOf. simpl. rewrite findProduct_mapStock.
    apply String.eqb_neq in Hpid. rewrite Hpid.
    destruct (option_map Product.currentStock (findProduct pid (products st)));
      reflexivity.
  - reflexivity.
Qed.

Lemma handleSave_stock_witness :
  stockOf "p-kale" (StockManager.handleSave StockManager.remove 25 (kale 10)
                      (farm 10 7)) = Some 0
  /\ stockOf "p-beans" (StockManager.handleSave StockManager.remove 25 (kale 10)
                      (farm 10 7)) = Some 7.
Proof.
  destruct (handleSave_stock StockManager.remove 25 (kale 10) (farm 10 7))
    as (H1 & _ & H3 & _).
  - reflexivity.
  - left. discriminate.
  - split; [exact H1 | apply (H3 "p-beans"); discriminate].
Defined.

(** In the mode [add] a negative entry larger than the stock is saved as a
    negative stock. *)
Example handleSave_add_negative :
  stockOf "p-kale" (StockManager.handleSave StockManager.add (-25) (kale 10)
                      (farm 10 7)) = Some (-15).
Proof. reflexivity. Qed.

(** X15.  A product that no stored sale refers to is sold out by a sale:
    as long as the sale is stored the product is listed on the stock
    screen, with stock 0; once the sale is deleted, it is listed no more. *)
Theorem sold_out_product_visibility (tk1 tk2 : Tick) (s : Sale.t) (st : Store) :
  Forall (fun x => Sale.productId x <> Sale.productId s) (sales st) ->
  Forall (fun p => Product.id p = Sale.productId s ->
                   Product.currentStock p <= Sale.quantity s) (products st) ->
  (forall p, In p (products (addSale tk1 s st)) ->
             Product.id p = Sale.productId s ->
             In p (StockManager.visibleProducts (addSale tk1 s st))
             /\ Product.currentStock p = 0)
  /\ Forall (fun p => Product.id p <> Sale.productId s)
            (StockManager.visibleProducts
               (deleteSale tk2 (Sale.id s) (addSale tk1 s st))).
Proof.
  intros Hsales Hstock. split.
  - intros p Hp Hid. split.
    + unfold StockManager.visibleProducts. apply filter_In. split; [exact Hp|].
      unfold addSale. simpl. rewrite Hid, String.eqb_refl.
      apply orb_true_r.
    + unfold addSale in Hp. simpl in Hp. unfold mapStock in Hp.
      apply in_map_iff in Hp. destruct Hp as [q [Hq Hin]].
      rewrite Forall_forall in Hstock. specialize (Hstock q Hin).
      destruct (Product.id q =? Sale.productId s) eqn:E.
      * apply String.eqb_eq in E. specialize (Hstock E). subst p. simpl. lia.
      * subst p. apply String.eqb_neq in E. contradiction.
  - apply Forall_forall. intros p Hp Hid.
    unfold StockManager.visibleProducts in Hp. apply filter_In in Hp.
    destruct Hp as [Hin Hvis].
    rewrite products_deleteSale in Hin.
    assert (Hs : sales (deleteSale tk2 (Sale.id s) (addSale tk1 s st))
                 = filter (fun x => negb (Sale.id x =? Sale.id s)) (sales st)).
    { unfold deleteSale. unfold findSale, addSale. simpl.
      rewrite String.eqb_refl. simpl. rewrite String.eqb_refl. reflexivity. }
    rewrite Hs in Hvis. apply orb_true_iff in Hvis. destruct Hvis as [Hpos|Hex].
    + unfold addSale in Hin. simpl in Hin. unfold mapStock in Hin.
      apply in_map_iff in Hin. destruct Hin as [q [Hq Hq']].
      rewrite Forall_forall in Hstock. specialize (Hstock q Hq').
      destruct (Product.id q =? Sale.productId s) eqn:E.
      * apply String.eqb_eq in E. specialize (Hstock E). subst p. simpl in Hpos.
        apply Z.ltb_lt in Hpos. lia.
      * subst p. apply String.eqb_neq in E. contradiction.
    + apply existsb_exists in Hex. destruct Hex as [x [Hx Hxp]].
      apply filter_In in Hx. destruct Hx as [Hx _].
      rewrite Forall_forall in Hsales. apply (Hsales x Hx).
      apply String.eqb_eq in Hxp. congruence.
Qed.

Lemma sold_out_product_visibility_witness :
  map Product.id
      (StockManager.visibleProducts (addSale (tick 0) (saleOf "p-kale" 4) (farm 3 7)))
  = ["p-kale"; "p-beans"]
  /\ Forall (fun p => Product.id p <> "p-kale")
       (StockManager.visibleProducts
          (deleteSale (tick 1) "s-1" (addSale (tick 0) (saleOf "p-kale" 4) (farm 3 7)))).
Proof.
  destruct (sold_out_product_visibility (tick 0) (tick 1) (saleOf "p-kale" 4)
              (farm 3 7)) as [_ H].
  - constructor.
  - repeat constructor; simpl; intros; try lia; discriminate.
  - split; [vm_compute; reflexivity | exact H].
Defined.

(** ** Settling and removing *)

(** X16.  [settleLiability] leaves every liability with the id settled and
    every other field of every liability as it was; settling again changes
    nothing. *)
Theorem settleLiability_idempotent (id : string) (st : Store) :
  Forall (fun l => Liability.id l = id -> Liability.status l = Settled)
         (liabilities (settleLiability id st))
  /\ map (Liability.with_status Settled) (liabilities (settleLiability id st))
     = map (Liability.with_status Settled) (liabilities st)
  /\ Forall2 (fun l l' => Liability.id l <> id -> l' = l)
             (liabilities st) (liabilities (settleLiability id st))
  /\ settleLiability id (settleLiability id st) = settleLiability id st.
Proof.
  unfold settleLiability. simpl. repeat split.
  - apply Forall_forall. intros l Hl Hid. apply in_map_iff in Hl.
    destruct Hl as [x [Hx _]]. destruct (Liability.id x =? id) eqn:E.
    + subst l. reflexivity.
    + subst l. apply String.eqb_neq in E. contradiction.
  - rewrite map_map. apply map_ext. intros l.
    destruct (Liability.id l =? id); reflexivity.
  - apply Forall2_map_r_rel. intros l Hid. apply String.eqb_neq in Hid.
    rewrite Hid. reflexivity.
  - unfold setLiabilities. simpl. f_equal. rewrite map_map. apply map_ext.
    intros l. destruct (Liability.id l =? id) eqn:E; simpl; rewrite E; reflexivity.
Qed.

(** X17.  An expense added under an id that no stored expense has and then
    deleted leaves the store as it was; so does a log deleted by an id that
    no stored log has. *)
Theorem addExpense_then_delete (e : Expense.t) (lid : string) (st : Store) :
  Forall (fun x => Expense.id x <> Expense.id e) (expenses st) ->
  Forall (fun l => ActivityLog.id l <> lid) (logs st) ->
  deleteExpense (Expense.id e) (addExpense e st) = st
  /\ deleteLog lid st = st.
Proof.
  intros He Hl. unfold deleteExpense, addExpense, deleteLog, setExpenses, setLogs.
  simpl. rewrite String.eqb_refl. simpl.
  rewrite !filter_all.
  - destruct st. split; reflexivity.
  - rewrite Forall_forall in *. intros l Hin. apply negb_true_iff.
    apply String.eqb_neq. auto.
  - rewrite Forall_forall in *. intros x Hin. apply negb_true_iff.
    apply String.eqb_neq. auto.
Qed.

Lemma addExpense_then_delete_witness :
  deleteExpense "e-1"
    (addExpense (Expense.mk "e-1" "Seeds" 500 1700000000000 "Seeds & Planting")
                farmWithLogs) = farmWithLogs.
Proof.
  destruct (addExpense_then_delete
              (Expense.mk "e-1" "Seeds" 500 1700000000000 "Seeds & Planting")
              "g-9" farmWithLogs) as [H _].
  - constructor.
  - vm_compute. repeat constructor; discriminate.
  - exact H.
Defined.

(** ** Sorting as the screens do *)

From Stdlib Require Import Permutation Sorted.

Section SortFacts.
Context {A : Type}.

Lemma insertSorted_perm (cmp : A -> A -> Z) (x : A) (l : list A) :
  Permutation (insertSorted cmp x l) (x :: l).
Proof.
  induction l as [|y r IH]; simpl; [reflexivity|].
  destruct (cmp x y <=? 0)%Z; [reflexivity|].
  rewrite IH. apply perm_swap.
Qed.

Lemma Array_sort_perm (cmp : A -> A -> Z) (l : list A) :
  Permutation (Array_sort cmp l) l.
Proof.
  induction l as [|x l IH]; simpl; [reflexivity|].
  rewrite insertSorted_perm. constructor. exact IH.
Qed.

Variable key : A -> Z.

(** Sorting with [(a, b) => key(b) - key(a)] puts the larger keys first. *)
Lemma insertSorted_desc (x : A) (l : list A) :
  StronglySorted (fun a b => key b <= key a) l ->
  StronglySorted (fun a b => key b <= key a)
                 (insertSorted (fun a b => key b - key a) x l).
Proof.
  induction 1 as [|y r Hr IH Hy]; simpl.
  - constructor; constructor.
  - destruct (key y - key x <=? 0)%Z eqn:E.
    + apply Z.leb_le in E. constructor; [constructor; assumption|].
      constructor; [lia|]. rewrite Forall_forall in *. intros z Hz.
      specialize (Hy z Hz). lia.
    + apply Z.leb_gt in E. constructor; [exact IH|].
      rewrite Forall_forall in *. intros z Hz.
      apply (Permutation_in _ (insertSorted_perm _ x r)) in Hz.
      destruct Hz as [<-|Hz]; [lia | auto].
Qed.

Lemma Array_sort_desc (l : list A) :
  StronglySorted (fun a b => key b <= key a)
                 (Array_sort (fun a b => key b - key a) l).
Proof.
  induction l as [|x l IH]; simpl; [constructor|].
  apply insertSorted_desc. exact IH.
Qed.

End SortFacts.

(** ** The figures of a customer *)

Lemma sumAmounts_from (xs : list Sale.t) (a : Z) :
  fold_left (fun sum s => sum + Sale.totalAmount s) xs a
  = a + CustomerList.sumAmounts xs.
Proof.
  unfold CustomerList.sumAmounts. revert a.
  induction xs as [|x xs IH]; intros a; simpl; [lia|].
  rewrite (IH (a + Sale.totalAmount x)), (IH (Sale.totalAmount x)). lia.
Qed.

Lemma sumAmounts_cons (x : Sale.t) (xs : list Sale.t) :
  CustomerList.sumAmounts (x :: xs)
  = Sale.totalAmount x + CustomerList.sumAmounts xs.
Proof. unfold CustomerList.sumAmounts at 1. simpl. apply sumAmounts_from. Qed.

Lemma sumAmounts_perm (xs ys : list Sale.t) :
  Permutation xs ys -> CustomerList.sumAmounts xs = CustomerList.sumAmounts ys.
Proof.
  induction 1; rewrite ?sumAmounts_cons; lia.
Qed.

Lemma sumAmounts_by_status (xs : list Sale.t) :
  CustomerList.sumAmounts xs
  = CustomerList.sumAmounts (filter CustomerList.isPaid xs)
    + CustomerList.sumAmounts (filter CustomerList.isPending xs).
Proof.
  induction xs as [|x xs IH]; [reflexivity|].
  simpl. unfold CustomerList.isPaid at 1, CustomerList.isPending at 1.
  destruct (Sale.paymentStatus x); rewrite !sumAmounts_cons; lia.
Qed.

(** X18.  The figures of a customer add up when the amounts of the
    customer's sales are whole numbers whose magnitudes sum to a safe
    integer, so that the program adds them exactly in whatever order: the
    total spent is the sum of the amounts of the customer's stored sales, it
    is the paid amount plus the outstanding amount, and the count is the
    number of those sales. *)
Theorem customerStats_totals (cid : string) (st : Store) (stats : CustomerList.Stats) :
  CustomerList.customerStats (Some cid) st = Some stats ->
  isSafeInteger
    (sumMagnitudes (filter (fun s => Sale.customerId s =? cid) (sales st))) = true ->
  CustomerList.totalSpent stats
    = CustomerList.paid stats + CustomerList.outstanding stats
  /\ CustomerList.totalSpent stats
    = CustomerList.sumAmounts (filter (fun s => Sale.customerId s =? cid) (sales st))
  /\ CustomerList.count stats
    = List.length (filter (fun s => Sale.customerId s =? cid) (sales st)).
Proof.
  unfold CustomerList.customerStats. destruct (cid =? ""); [discriminate|].
  destruct (findCustomer cid (customers st)); [|discriminate].
  intros H _. injection H as <-. simpl. split; [|split].
  - apply sumAmounts_by_status.
  - apply sumAmounts_perm. apply Array_sort_perm.
  - apply Permutation_length. apply Array_sort_perm.
Qed.

Lemma customerStats_totals_witness :
  exists stats,
    CustomerList.customerStats (Some "c-alice") ledger = Some stats
    /\ CustomerList.totalSpent stats
       = CustomerList.paid stats + CustomerList.outstanding stats
    /\ CustomerList.totalSpent stats = 165
    /\ CustomerList.count stats = 3%nat.
Proof.
  eexists. split; [vm_compute; reflexivity|].
  destruct (customerStats_totals "c-alice" ledger _ eq_refl) as (H1 & _ & _).
  - vm_compute. reflexivity.
  - split; [exact H1|]. split; reflexivity.
Defined.

(** X19.  The sales listed for a customer are exactly the customer's stored
    sales, each once, and the logs listed are exactly the logs that carry
    the customer's name, each once and latest first. *)
Theorem customerStats_sorted (cid : string) (st : Store) (stats : CustomerList.Stats) :
  CustomerList.customerStats (Some cid) st = Some stats ->
  Permutation (CustomerList.custSales stats)
              (filter (fun s => Sale.customerId s =? cid) (sales st))
  /\ (exists c, findCustomer cid (customers st) = Some c
        /\ Permutation (CustomerList.deletionLogs stats)
             (filter (fun l => ActivityLog.customerName l =? Customer.name c)
                     (logs st)))
  /\ StronglySorted (fun a b => ActivityLog.timestamp b <= ActivityLog.timestamp a)
                    (CustomerList.deletionLogs stats).
Proof.
  unfold CustomerList.customerStats. destruct (cid =? ""); [discriminate|].
  destruct (findCustomer cid (customers st)) as [c|]; [|discriminate].
  intros H. injection H as <-. simpl. split; [|split].
  - apply Array_sort_perm.
  - exists c. split; [reflexivity | apply Array_sort_perm].
  - apply (Array_sort_desc ActivityLog.timestamp).
Qed.

Lemma customerStats_sorted_witness :
  exists stats,
    CustomerList.customerStats (Some "c-alice") ledger = Some stats
    /\ Permutation (CustomerList.custSales stats)
         (filter (fun s => Sale.customerId s =? "c-alice") (sales ledger))
    /\ map ActivityLog.id (CustomerList.deletionLogs stats) = ["g-1"; "g-3"].
Proof.
  eexists. split; [vm_compute; reflexivity|].
  destruct (customerStats_sorted "c-alice" ledger _ eq_refl) as (H & _ & _).
  split; [exact H | reflexivity].
Defined.

(** ** Renaming *)

Section RenameFacts.
Context {A : Type}.
Variables (ident key : A -> string).

(** Replacing the one element with a given id by an element whose key no
    other element has keeps the keys pairwise distinct. *)
Lemma replace_keeps_keys_distinct (x x' : A) (l : list A) :
  NoDup (map ident l) ->
  NoDup (map key l) ->
  In x l ->
  Forall (fun y => ident y <> ident x -> key y <> key x') l ->
  NoDup (map key (map (fun y => if ident y =? ident x then x' else y) l)).
Proof.
  induction l as [|y r IH]; intros Hid Hkey Hin Hnew; [destruct Hin|].
  inversion Hid as [|? ? Hy Hid']. inversion Hkey as [|? ? Hky Hkey'].
  inversion Hnew as [|? ? Hny Hnew']. subst. simpl.
  destruct (ident y =? ident x) eqn:E.
  - apply String.eqb_eq in E.
    assert (Hr : Forall (fun z => ident z <> ident x) r).
    { apply Forall_forall. intros z Hz Hzx. apply Hy. rewrite E, <- Hzx.
      apply in_map. exact Hz. }
    rewrite (map_replace_absent ident) by exact Hr.
    constructor; [|exact Hkey'].
    intros Hk. apply in_map_iff in Hk. destruct Hk as [z [Hz Hzin]].
    rewrite Forall_forall in Hr, Hnew'.
    apply (Hnew' z Hzin (Hr z Hzin)). exact Hz.
  - apply String.eqb_neq in E.
    assert (Hxr : In x r) by (destruct Hin as [->|H]; [contradiction E; reflexivity | exact H]).
    constructor; [|apply IH; assumption].
    intros Hk. rewrite map_map in Hk. apply in_map_iff in Hk.
    destruct Hk as [z [Hz Hzin]].
    destruct (ident z =? ident x).
    + apply (Hny E). symmetry. exact Hz.
    + apply Hky. rewrite <- Hz. apply in_map. exact Hzin.
Qed.

End RenameFacts.



(** X21.  Renaming the customer of the open profile keeps the names of the
    customers pairwise distinct apart from case, given distinct ids; an
    empty name and a name that another customer has change nothing; an
    accepted name is carried into every log that carried the old one. *)
Theorem handleUpdateCustomerDetails_keeps_names_distinct
    (editCustName editCustPhone : string) (selectedCustomer : Customer.t)
    (st : Store) :
  NoDup (map Customer.id (customers st)) ->
  NoDup (map (fun c => toLowerCase (Customer.name c)) (customers st)) ->
  In selectedCustomer (customers st) ->
  NoDup (map (fun c => toLowerCase (Customer.name c))
             (customers (fst (CustomerList.handleUpdateCustomerDetails
                                editCustName editCustPhone
                                (Some selectedCustomer) st))))
  /\ (fst (CustomerList.handleUpdateCustomerDetails
             editCustName editCustPhone (Some selectedCustomer) st) = st
      \/ logs (fst (CustomerList.handleUpdateCustomerDetails
                      editCustName editCustPhone (Some selectedCustomer) st))
         = map (fun l => if ActivityLog.customerName l
                            =? Customer.name selectedCustomer
                         then ActivityLog.with_customerName (trim editCustName) l
                         else l) (logs st)).
Proof.
  intros Hid Hnames Hin. unfold CustomerList.handleUpdateCustomerDetails.
  destruct (trim editCustName =? "") eqn:Eempty.
  { simpl. split; [assumption | left; reflexivity]. }
  destruct (existsb _ (customers st)) eqn:E.
  { simpl. split; [assumption | left; reflexivity]. }
  simpl. split.
  - assert (Hc : customers (updateCustomer
                   (Customer_with_name_phone (trim editCustName)
                      (trim editCustPhone) selectedCustomer) st)
                 = map (fun c => if Customer.id c =? Customer.id selectedCustomer
                                 then Customer_with_name_phone (trim editCustName)
                                        (trim editCustPhone) selectedCustomer
                                 else c) (customers st)).
    { unfold updateCustomer. simpl.
      destruct (findCustomer _ (customers st)) as [old|]; [|reflexivity].
      destruct (negb _); reflexivity. }
    rewrite Hc.
    apply (replace_keeps_keys_distinct Customer.id
             (fun c => toLowerCase (Customer.name c)) selectedCustomer);
      try assumption.
    apply existsb_false_Forall in E. rewrite Forall_forall in *.
    intros y Hy Hneq Hk. specialize (E y Hy). simpl in E.
    apply String.eqb_neq in Hneq. rewrite Hneq in E. simpl in E.
    apply String.eqb_neq in E. apply E. exact Hk.
  - right.
    assert (Hfind : findCustomer (Customer.id selectedCustomer) (customers st)
                    = Some selectedCustomer).
    { unfold findCustomer. clear - Hid Hin.
      induction (customers st) as [|y r IH]; [destruct Hin|]. simpl.
      inversion Hid as [|? ? Hy Hid']; subst.
      destruct Hin as [->|Hin]; [rewrite String.eqb_refl; reflexivity|].
      destruct (Customer.id y =? Customer.id selectedCustomer) eqn:Ey.
      - apply String.eqb_eq in Ey. exfalso. apply Hy. rewrite Ey.
        apply in_map. exact Hin.
      - apply IH; assumption. }
    unfold updateCustomer. simpl. rewrite Hfind.
    destruct (Customer.name selectedCustomer =? trim editCustName) eqn:En; simpl;
      [|reflexivity].
    apply String.eqb_eq in En. rewrite <- En.
    rewrite <- (map_id (logs st)) at 1. apply map_ext. intros l.
    destruct (ActivityLog.customerName l =? Customer.name selectedCustomer) eqn:El;
      [|reflexivity].
    apply String.eqb_eq in El. rewrite <- El. destruct l. reflexivity.
Qed.

Lemma handleUpdateCustomerDetails_keeps_names_distinct_witness :
  map Customer.name
      (customers (fst (CustomerList.handleUpdateCustomerDetails
                         " Alice Smith " "98" (Some alice) farmWithLogs)))
  = ["Alice Smith"; "Bob"]
  /\ NoDup (map (fun c => toLowerCase (Customer.name c))
            (customers (fst (CustomerList.handleUpdateCustomerDetails
                               " Alice Smith " "98" (Some alice) farmWithLogs))))
  /\ map ActivityLog.customerName
         (logs (fst (CustomerList.handleUpdateCustomerDetails
                       " Alice Smith " "98" (Some alice) farmWithLogs)))
     = ["Alice Smith"; "Bob"; "Alice Smith"].
Proof.
  destruct (handleUpdateCustomerDetails_keeps_names_distinct
              " Alice Smith " "98" alice farmWithLogs) as [H _].
  - vm_compute. repeat constructor; simpl; intuition discriminate.
  - vm_compute. repeat constructor; simpl; intuition discriminate.
  - left. reflexivity.
  - split; [vm_compute; reflexivity|]. split; [exact H | vm_compute; reflexivity].
Defined.

(** ** Several sales from one handler *)

Lemma findProduct_name_mapStock (pid x : string) (f : Z -> Z) (ps : list Product.t) :
  option_map Product.name (findProduct pid (mapStock x f ps))
  = option_map Product.name (findProduct pid ps).
Proof.
  unfold findProduct, mapStock. rewrite find_map_stable.
  - destruct (find _ ps) as [p|]; simpl; [|reflexivity].
    destruct (Product.id p =? x); reflexivity.
  - intros p. destruct (Product.id p =? x); reflexivity.
Qed.

(** The names that [addSale] reads are the same in the store of the render
    and in the state that earlier calls of the same handler left. *)
Lemma checkout_from (rendered : Store) (items : list (Tick * Sale.t)) :
  forall st : Store,
  customers st = customers rendered ->
  (forall pid, option_map Product.name (findProduct pid (products st))
               = option_map Product.name (findProduct pid (products rendered))) ->
  fold_left (fun st e => addSaleFrom rendered (fst e) (snd e) st) items st
  = run st (map (fun e => (fst e, AddSale (snd e))) items).
Proof.
  induction items as [|[tk s] items IH]; intros st Hc Hp; [reflexivity|].
  assert (E : addSaleFrom rendered tk s st = addSale tk s st).
  { unfold addSaleFrom, addSale. rewrite Hc, Hp. reflexivity. }
  change (fold_left (fun st e => addSaleFrom rendered (fst e) (snd e) st)
            items (addSaleFrom rendered tk s st)
          = run (addSale tk s st) (map (fun e => (fst e, AddSale (snd e))) items)).
  rewrite E. apply IH.
  - unfold addSale. simpl. exact Hc.
  - intros pid. unfold addSale. simpl. rewrite findProduct_name_mapStock.
    apply Hp.
Qed.

(** X22.  The sales of a checkout, all recorded through the [addSale] of
    one render, leave the store that the same sales recorded one after the
    other, each in a render of its own, would leave: every item takes its
    quantity from the stock that the items before it left, and every log
    names the product and the customer. *)
Theorem checkout_is_sequence (items : list (Tick * Sale.t)) (st : Store) :
  checkoutSales items st
  = run st (map (fun e => (fst e, AddSale (snd e))) items).
Proof.
  unfold checkoutSales. apply checkout_from; reflexivity.
Qed.

(** Two items of kale, 4 and 9, out of a stock of 10: 6, then 0. *)
Example checkout_two_items :
  stockOf "p-kale" (checkoutSales billSales (farm 10 7)) = Some 0
  /\ map Sale.id (sales (checkoutSales billSales (farm 10 7))) = ["s-11"; "s-10"]
  /\ map ActivityLog.entityName (logs (checkoutSales billSales (farm 10 7)))
     = ["Kale"; "Kale"].
Proof. vm_compute. repeat split. Qed.

(** ** More on the bulk import of sales *)

Lemma mutateFirst_map_stable {A B : Type} (g : A -> B) (pred : A -> bool)
    (f : A -> A) (l : list A) :
  (forall x, g (f x) = g x) -> map g (mutateFirst pred f l) = map g l.
Proof.
  intros Hg. induction l as [|x l IH]; simpl; [reflexivity|].
  destruct (pred x); simpl; [rewrite Hg | rewrite IH]; reflexivity.
Qed.

Section BulkImportMore.
Variable Date_getTime : string -> option Z.
Variable clock : nat -> Z.

Lemma importRow_customers (index : nat) (row : Row.t) (acc : ImportState) :
  currentCustomers (importRow Date_getTime clock index row acc)
  = match find (fun c => sameName (Customer.name c) (Row.Customer row))
               (currentCustomers acc) with
    | Some _ => currentCustomers acc
    | None => (currentCustomers acc ++ [rowCustomer clock index row])%list
    end.
Proof.
  unfold importRow.
  destruct (find _ (currentCustomers acc)); destruct (find _ (currentProducts acc));
    reflexivity.
Qed.

Lemma importRow_products (index : nat) (row : Row.t) (acc : ImportState) :
  map withoutStock (currentProducts (importRow Date_getTime clock index row acc))
  = map withoutStock
      match find (fun p => sameName (Product.name p) (Row.Product row))
                 (currentProducts acc) with
      | Some _ => currentProducts acc
      | None => (currentProducts acc ++ [rowProduct clock index row])%list
      end.
Proof.
  unfold importRow.
  destruct (find _ (currentCustomers acc)); destruct (find _ (currentProducts acc));
    simpl; apply mutateFirst_map_stable; intros; reflexivity.
Qed.

Lemma importRow_sales (index : nat) (row : Row.t) (acc : ImportState) :
  exists s,
    newSales (importRow Date_getTime clock index row acc) = (newSales acc ++ [s])%list
    /\ Sale.customerId s
       = Customer.id
           match find (fun c => sameName (Customer.name c) (Row.Customer row))
                      (currentCustomers acc) with
           | Some c => c
           | None => rowCustomer clock index row
           end
    /\ Sale.productId s
       = Product.id
           match find (fun p => sameName (Product.name p) (Row.Product row))
                      (currentProducts acc) with
           | Some p => p
           | None => rowProduct clock index row
           end
    /\ Sale.quantity s = Row.Quantity row
    /\ Sale.totalAmount s = Row.Amount row.
Proof.
  unfold importRow.
  destruct (find _ (currentCustomers acc)); destruct (find _ (currentProducts acc));
    simpl; eexists; repeat split.
Qed.

Lemma withoutStock_ids (ps qs : list Product.t) :
  map withoutStock ps = map withoutStock qs ->
  map Product.id ps = map Product.id qs
  /\ map Product.name ps = map Product.name qs.
Proof.
  intros H.
  assert (Hi : forall l, map Product.id l = map Product.id (map withoutStock l))
    by (intros l; rewrite map_map; reflexivity).
  assert (Hn : forall l, map Product.name l = map Product.name (map withoutStock l))
    by (intros l; rewrite map_map; reflexivity).
  split; [rewrite (Hi ps), (Hi qs) | rewrite (Hn ps), (Hn qs)];
    rewrite H; reflexivity.
Qed.

Lemma importRow_refers (index : nat) (row : Row.t) (acc : ImportState) :
  importRefers acc -> importRefers (importRow Date_getTime clock index row acc).
Proof.
  unfold importRefers. intros H.
  destruct (importRow_sales index row acc) as (s & Hs & Hc & Hp & _).
  destruct (withoutStock_ids _ _ (importRow_products index row acc)) as [Hids _].
  rewrite Hs, Hids, importRow_customers.
  apply Forall_app. split.
  - rewrite Forall_forall in *. intros x Hx. destruct (H x Hx) as [H1 H2]. split.
    + destruct (find _ (currentProducts acc)); [exact H1|].
      rewrite map_app. apply in_or_app. left. exact H1.
    + destruct (find _ (currentCustomers acc)); [exact H2|].
      rewrite map_app. apply in_or_app. left. exact H2.
  - constructor; [|constructor]. rewrite Hc, Hp. split.
    + destruct (find _ (currentProducts acc)) as [p|] eqn:E.
      * apply find_some in E. apply in_map. tauto.
      * rewrite map_app. apply in_or_app. right. left. reflexivity.
    + destruct (find _ (currentCustomers acc)) as [c|] eqn:E.
      * apply find_some in E. apply in_map. tauto.
      * rewrite map_app. apply in_or_app. right. left. reflexivity.
Qed.

Lemma NoDup_snoc_normal {A : Type} (name : A -> string) (n : string) (x : A)
    (l : list A) :
  name x = n ->
  find (fun y => sameName (name y) n) l = None ->
  NoDup (map (fun y => normalName (name y)) l) ->
  NoDup (map (fun y => normalName (name y)) (l ++ [x])).
Proof.
  intros Hx Hfind Hnd. rewrite map_app. apply NoDup_app; [exact Hnd| |].
  - simpl. constructor; [intros [] | constructor].
  - intros k Hk [Hk'|[]]. subst k. apply in_map_iff in Hk.
    destruct Hk as [y [Hy Hin]]. apply find_none_Forall in Hfind.
    rewrite Forall_forall in Hfind. specialize (Hfind y Hin). simpl in Hfind.
    rewrite Hx in Hy. apply sameName_normalName in Hy.
    rewrite Hy in Hfind. discriminate.
Qed.

Lemma importRow_names_distinct (index : nat) (row : Row.t) (acc : ImportState) :
  importNamesDistinct acc ->
  importNamesDistinct (importRow Date_getTime clock index row acc).
Proof.
  unfold importNamesDistinct. intros [Hp Hc]. split.
  - destruct (withoutStock_ids _ _ (importRow_products index row acc)) as [_ Hn].
    rewrite <- (map_map Product.name normalName), Hn, map_map.
    destruct (find _ (currentProducts acc)) eqn:E; [exact Hp|].
    apply (NoDup_snoc_normal Product.name (Row.Product row)); auto.
  - rewrite importRow_customers.
    destruct (find _ (currentCustomers acc)) eqn:E; [exact Hc|].
    apply (NoDup_snoc_normal Customer.name (Row.Customer row)); auto.
Qed.

Lemma importRows_invariants (rows : list Row.t) :
  forall (index : nat) (acc : ImportState),
  (importRefers acc ->
   importRefers (importRows Date_getTime clock index rows acc))
  /\ (importNamesDistinct acc ->
      importNamesDistinct (importRows Date_getTime clock index rows acc))
  /\ map (fun s => (Sale.quantity s, Sale.totalAmount s))
         (newSales (importRows Date_getTime clock index rows acc))
     = (map (fun s => (Sale.quantity s, Sale.totalAmount s)) (newSales acc)
        ++ map (fun r => (Row.Quantity r, Row.Amount r)) rows)%list.
Proof.
  induction rows as [|row rows IH]; intros index acc; simpl.
  - rewrite app_nil_r. auto.
  - destruct (IH (S index) (importRow Date_getTime clock index row acc))
      as (I1 & I2 & I3).
    split; [|split].
    + intros H. apply I1. apply importRow_refers. exact H.
    + intros H. apply I2. apply importRow_names_distinct. exact H.
    + rewrite I3.
      destruct (importRow_sales index row acc) as (s & Hs & _ & _ & Hq & Ha).
      rewrite Hs, map_app. simpl. rewrite Hq, Ha, <- app_assoc. reflexivity.
Qed.

End BulkImportMore.

(** X23.  After [bulkImportSales] every sale refers to a product and to a
    customer of the store: the import leaves no dangling reference. *)
Theorem bulkImportSales_references (Date_getTime : string -> option Z)
    (clock : nat -> Z) (parsedRows : list Row.t) (st : Store) :
  salesReferToProducts (bulkImportSales Date_getTime clock parsedRows st)
  /\ salesReferToCustomers (bulkImportSales Date_getTime clock parsedRows st).
Proof.
  unfold salesReferToProducts, salesReferToCustomers, bulkImportSales. simpl.
  destruct (importRows_invariants Date_getTime clock parsedRows 0%nat
              (mkImport [] [] [])) as (H & _ & _).
  assert (H0 : importRefers (mkImport [] [] [])) by constructor.
  specialize (H H0). unfold importRefers in H.
  split; rewrite Forall_forall in *; intros s Hs; destruct (H s Hs) as [Hp Hc].
  - apply in_map_iff in Hp. destruct Hp as [p [Hid Hin]]. exists p. auto.
  - apply in_map_iff in Hc. destruct Hc as [c [Hid Hin]]. exists c. auto.
Qed.

(** X24.  After [bulkImportSales] no two products and no two customers of
    the store have the same name apart from case and surrounding blanks:
    rows whose names match share one product and one customer. *)
Theorem bulkImportSales_names_distinct (Date_getTime : string -> option Z)
    (clock : nat -> Z) (parsedRows : list Row.t) (st : Store) :
  NoDup (map (fun p => normalName (Product.name p))
             (products (bulkImportSales Date_getTime clock parsedRows st)))
  /\ NoDup (map (fun c => normalName (Customer.name c))
             (customers (bulkImportSales Date_getTime clock parsedRows st))).
Proof.
  unfold bulkImportSales. simpl.
  destruct (importRows_invariants Date_getTime clock parsedRows 0%nat
              (mkImport [] [] [])) as (_ & H & _).
  apply H. split; constructor.
Qed.

(** X25.  [bulkImportSales] records one sale for each row, in the order of
    the rows, with the quantity and the amount of the row; it empties the
    expenses, the liabilities and the logs, keeps nothing of the sales,
    products and customers stored before, and leaves the configuration as
    it is. *)
Theorem bulkImportSales_sales (Date_getTime : string -> option Z)
    (clock : nat -> Z) (parsedRows : list Row.t) (st st' : Store) :
  map (fun s => (Sale.quantity s, Sale.totalAmount s))
      (sales (bulkImportSales Date_getTime clock parsedRows st))
    = map (fun r => (Row.Quantity r, Row.Amount r)) parsedRows
  /\ expenses (bulkImportSales Date_getTime clock parsedRows st) = []
  /\ liabilities (bulkImportSales Date_getTime clock parsedRows st) = []
  /\ logs (bulkImportSales Date_getTime clock parsedRows st) = []
  /\ sales (bulkImportSales Date_getTime clock parsedRows st)
     = sales (bulkImportSales Date_getTime clock parsedRows st')
  /\ products (bulkImportSales Date_getTime clock parsedRows st)
     = products (bulkImportSales Date_getTime clock parsedRows st')
  /\ customers (bulkImportSales Date_getTime clock parsedRows st)
     = customers (bulkImportSales Date_getTime clock parsedRows st')
  /\ themeMode (bulkImportSales Date_getTime clock parsedRows st) = themeMode st
  /\ dateSystem (bulkImportSales Date_getTime clock parsedRows st) = dateSystem st
  /\ currencyCode (bulkImportSales Date_getTime clock parsedRows st) = currencyCode st
  /\ customCurrency (bulkImportSales Date_getTime clock parsedRows st)
     = customCurrency st.
Proof.
  unfold bulkImportSales. simpl.
  destruct (importRows_invariants Date_getTime clock parsedRows 0%nat
              (mkImport [] [] [])) as (_ & _ & H).
  rewrite H. repeat split.
Qed.

(** ** Sales that refer to nothing stored *)

(** X26.  [addSale] does not check its references: a sale of a product id
    that is not stored is recorded all the same, changes no product, and
    is logged under the product name [Unknown]; when its customer id is not
    stored either, the log names the customer [Retail]. *)
Theorem addSale_unknown_references (tk : Tick) (newSale : Sale.t) (st : Store) :
  Forall (fun p => Product.id p <> Sale.productId newSale) (products st) ->
  Forall (fun c => Customer.id c <> Sale.customerId newSale) (customers st) ->
  sales (addSale tk newSale st) = newSale :: sales st
  /\ products (addSale tk newSale st) = products st
  /\ exists log,
       logs (addSale tk newSale st) = log :: logs st
       /\ ActivityLog.action log = Created
       /\ ActivityLog.entityName log = "Unknown"
       /\ ActivityLog.customerName log = "Retail".
Proof.
  intros Hp Hc.
  assert (Fp : findProduct (Sale.productId newSale) (products st) = None).
  { unfold findProduct. destruct (find _ (products st)) as [p|] eqn:E; [|reflexivity].
    apply find_some in E. destruct E as [Hin E]. apply String.eqb_eq in E.
    rewrite Forall_forall in Hp. destruct (Hp p Hin E). }
  assert (Fc : findCustomer (Sale.customerId newSale) (customers st) = None).
  { unfold findCustomer. destruct (find _ (customers st)) as [c|] eqn:E; [|reflexivity].
    apply find_some in E. destruct E as [Hin E]. apply String.eqb_eq in E.
    rewrite Forall_forall in Hc. destruct (Hc c Hin E). }
  unfold addSale. rewrite Fp, Fc. simpl. split; [reflexivity|]. split.
  - unfold mapStock. apply (map_replace_absent Product.id). exact Hp.
  - eexists. split; [reflexivity|]. repeat split.
Qed.

Lemma addSale_unknown_references_witness :
  products (addSale (tick 0)
              (Sale.mk "s-9" "c-nobody" "p-nothing" 4 160 1700000100000 Paid None)
              (farm 10 7)) = [kale 10; beans 7].
Proof.
  destruct (addSale_unknown_references (tick 0)
              (Sale.mk "s-9" "c-nobody" "p-nothing" 4 160 1700000100000 Paid None)
              (farm 10 7)) as (_ & H & _).
  - repeat constructor; discriminate.
  - repeat constructor; discriminate.
  - exact H.
Defined.
